(** * clip-sync: the sync session of [wayland-clip-sync.py]

    A shallow embedding of the core of the clipboard synchroniser: the
    content hash [sha], the content-type choice [choose_mime], the inbound
    loop [rx_loop], the outbound loop [tx_loop], and the session and
    listener set-up [run_session] / [serve].

    Conventions.
    - Python [bytes] are [list byte]; Python [str] are [string], read as the
      UTF-8 encoding of the text, so that [str.encode()] is
      [list_byte_of_string] and string equality and ASCII prefixes are
      preserved.
    - A parsed JSON document, and every Python value stored in the hash
      ledgers, is a [json] value ([JNull] is Python's [None]).
    - The two ledgers [last_local] and [last_remote] are Python dicts keyed
      by selection name; they are [gmap string json].
    - Library code the script calls but does not define ([json.loads],
      the built-in [int] on strings) is a parameter, class [Runtime].
      [hashlib.sha256] is written out in module [Sha256]. *)

From Stdlib Require Import ZArith List String Ascii.
From Stdlib.Strings Require Import Byte.
From Stdlib Require Import Floats.SpecFloat DecimalString.
From stdpp Require Import gmap strings list.

Local Open Scope Z_scope.

(** ** SHA-256 (FIPS 180-4), on 32-bit words held in [Z] *)

Module Sha256.

Definition wrap (x : Z) : Z := x mod 2 ^ 32.

Definition add (x y : Z) : Z := wrap (x + y).

Definition rotr (n x : Z) : Z :=
  Z.lor (Z.shiftr x n) (wrap (Z.shiftl x (32 - n))).

Definition shr (n x : Z) : Z := Z.shiftr x n.

Definition xor3 (x y z : Z) : Z := Z.lxor (Z.lxor x y) z.

Definition ch (x y z : Z) : Z :=
  Z.lxor (Z.land x y) (Z.land (Z.lxor x 0xffffffff) z).

Definition maj (x y z : Z) : Z :=
  xor3 (Z.land x y) (Z.land x z) (Z.land y z).

Definition bsig0 (x : Z) : Z := xor3 (rotr 2 x) (rotr 13 x) (rotr 22 x).
Definition bsig1 (x : Z) : Z := xor3 (rotr 6 x) (rotr 11 x) (rotr 25 x).
Definition ssig0 (x : Z) : Z := xor3 (rotr 7 x) (rotr 18 x) (shr 3 x).
Definition ssig1 (x : Z) : Z := xor3 (rotr 17 x) (rotr 19 x) (shr 10 x).

(** The constants are what FIPS 180-4 says they are: the first 32 bits of
    the fractional parts of the cube roots ([K]) and of the square roots
    ([H0]) of the first primes. *)
Definition is_prime (n : Z) : bool :=
  forallb (fun d => negb (n mod Z.of_nat d =? 0)) (seq 2 (Z.to_nat n - 2)).

Definition primes : list Z :=
  filter is_prime (map Z.of_nat (seq 2 310)).

(** The integer cube root of [n < 2 ^ (3 * k)], bit by bit. *)
Fixpoint cbrt_bits (k : nat) (n acc : Z) : Z :=
  match k with
  | O => acc
  | S k' =>
      let c := acc + 2 ^ Z.of_nat k' in
      cbrt_bits k' n (if c * c * c <=? n then c else acc)
  end.

Definition K : list Z :=
  map (fun p => wrap (cbrt_bits 36 (p * 2 ^ 96) 0)) primes.

Definition H0 : list Z :=
  map (fun p => wrap (Z.sqrt (p * 2 ^ 64))) (firstn 8 primes).

Definition octet (b : byte) : Z := Z.of_N (Byte.to_N b).

(** [be n x]: the [n] low octets of [x], most significant first. *)
Fixpoint be (n : nat) (x : Z) : list Z :=
  match n with
  | O => []
  | S k => Z.shiftr x (8 * Z.of_nat k) mod 256 :: be k x
  end.

(** Padding: the bit 1, zeros up to 56 mod 64, the bit length on 64 bits. *)
Definition pad (msg : list Z) : list Z :=
  let len := Z.of_nat (length msg) in
  msg ++ 0x80 :: repeat 0 (Z.to_nat ((55 - len) mod 64)) ++ be 8 (8 * len).

Fixpoint words (bs : list Z) : list Z :=
  match bs with
  | a :: b :: c :: d :: rest =>
      (((a * 256 + b) * 256 + c) * 256 + d) :: words rest
  | _ => []
  end.

(** The message schedule, newest word first. *)
Fixpoint extend (n : nat) (rev_w : list Z) : list Z :=
  match n with
  | O => rev_w
  | S k =>
      let at_ i := nth i rev_w 0 in
      extend k (add (add (ssig1 (at_ 1%nat)) (at_ 6%nat))
                    (add (ssig0 (at_ 14%nat)) (at_ 15%nat)) :: rev_w)
  end.

Definition schedule (block : list Z) : list Z :=
  rev (extend 48 (rev block)).

Record regs := Regs { ra : Z; rb : Z; rc : Z; rd : Z;
                      re : Z; rf : Z; rg : Z; rh : Z }.

Definition round (r : regs) (kw : Z * Z) : regs :=
  let t1 := add (add (add (rh r) (bsig1 (re r))) (ch (re r) (rf r) (rg r)))
                (add (fst kw) (snd kw)) in
  let t2 := add (bsig0 (ra r)) (maj (ra r) (rb r) (rc r)) in
  Regs (add t1 t2) (ra r) (rb r) (rc r) (add (rd r) t1) (re r) (rf r) (rg r).

Definition regs_of (h : list Z) : regs :=
  let at_ i := nth i h 0 in
  Regs (at_ 0%nat) (at_ 1%nat) (at_ 2%nat) (at_ 3%nat)
       (at_ 4%nat) (at_ 5%nat) (at_ 6%nat) (at_ 7%nat).

Definition regs_list (r : regs) : list Z :=
  [ra r; rb r; rc r; rd r; re r; rf r; rg r; rh r].

Definition compress (h : list Z) (block : list Z) : list Z :=
  let r := fold_left round (combine K (schedule block)) (regs_of h) in
  map (fun p => add (fst p) (snd p)) (combine h (regs_list r)).

Fixpoint blocks (n : nat) (ws : list Z) (h : list Z) : list Z :=
  match n with
  | O => h
  | S k => blocks k (skipn 16 ws) (compress h (firstn 16 ws))
  end.

Definition digest (msg : list byte) : list Z :=
  let ws := words (pad (map octet msg)) in
  flat_map (be 4) (blocks (length ws / 16) ws H0).

Definition hex_digit (d : Z) : ascii :=
  ascii_of_nat (Z.to_nat (if d <? 10 then 48 + d else 87 + d)).

Fixpoint hex (bs : list Z) : string :=
  match bs with
  | [] => EmptyString
  | b :: rest => String (hex_digit (b / 16)) (String (hex_digit (b mod 16)) (hex rest))
  end.

(** [hashlib.sha256(msg).hexdigest()] *)
Definition hexdigest (msg : list byte) : string := hex (digest msg).

End Sha256.

(** [sha(data, mime)]: one [update] with [mime.encode() + b"\0" + data]. *)
Definition sha (data : list byte) (mime : string) : string :=
  Sha256.hexdigest (list_byte_of_string mime ++ x00 :: data).


(** ** Python values *)

(** A JSON document as [json.loads] returns it, and any value held in a
    ledger.  Objects keep their keys in order, one entry per key. *)
#[warnings="-register-all"]
Inductive json : Type :=
| JNull
| JBool (b : bool)
| JInt (n : Z)
| JFloat (f : spec_float)
| JStr (s : string)
| JArr (xs : list json)
| JObj (kvs : list (string * json)).

Inductive exn : Type :=
| AttributeError | TypeError | ValueError | OverflowError | KeyError.

(** The result of an expression that may raise. *)
Inductive res (A : Type) : Type :=
| Ok (a : A)
| Raise (e : exn).
Arguments Ok {A} a.
Arguments Raise {A} e.

#[global] Instance res_ret : MRet res := fun A a => Ok a.
#[global] Instance res_bind : MBind res := fun A B f m =>
  match m with
  | Ok a => f a
  | Raise e => Raise e
  end.

(** [s == v] for a [str] [s]: only an equal [str] is equal. *)
Definition py_str_eq (s : string) (v : json) : bool :=
  match v with
  | JStr s' => String.eqb s s'
  | _ => false
  end.

Fixpoint dict_get (k : string) (d : list (string * json)) : option json :=
  match d with
  | [] => None
  | (k', v) :: rest => if String.eqb k k' then Some v else dict_get k rest
  end.

(** [hdr.get(k, dflt)]: only a dict has [get]. *)
Definition hdr_get (hdr : json) (k : string) (dflt : json) : res json :=
  match hdr with
  | JObj d => Ok (default dflt (dict_get k d))
  | _ => Raise AttributeError
  end.

(** Library functions of the Python runtime that the script calls.
    [json_loads line] is [json.loads(line.decode("utf-8"))], with [None]
    for any exception; [int_of_str] is [int] on a [str]. *)
Class Runtime : Type := {
  json_loads : list byte -> option json;
  int_of_str : string -> res Z;
}.

(** [int(v)].  A float is truncated towards zero; [nan] and the infinities
    raise, as do [None], lists and dicts. *)
Definition py_int `{Runtime} (v : json) : res Z :=
  match v with
  | JInt n => Ok n
  | JBool b => Ok (if b then 1 else 0)
  | JFloat (S754_zero _) => Ok 0
  | JFloat (S754_finite s m e) =>
      let mag := if 0 <=? e then Z.pos m * 2 ^ e else Z.pos m / 2 ^ (- e) in
      Ok (if s then - mag else mag)
  | JFloat S754_nan => Raise ValueError
  | JFloat (S754_infinity _) => Raise OverflowError
  | JStr s => int_of_str s
  | JNull | JArr _ | JObj _ => Raise TypeError
  end.

(** ** wayland helpers *)

Definition startswith (s p : string) : bool := String.prefix p s.

Definition prefs : list string :=
  [ "image/png"; "image/jpeg"; "image/webp";
    "text/plain;charset=utf-8"; "text/plain" ]%string.

(** The test of the inner loop of [choose_mime]. *)
Definition mime_hit (pref m : string) : bool :=
  String.eqb m pref
  || (startswith pref "text/plain" && startswith m "text/plain").

(** The outer loop of [choose_mime], over the preferences still to try. *)
Fixpoint choose_from (ps : list string) (mimes : list string) : option string :=
  match ps with
  | [] => head mimes
  | pref :: rest =>
      match find (mime_hit pref) mimes with
      | Some m => Some m
      | None => choose_from rest mimes
      end
  end.

Definition choose_mime (mimes : list string) : option string :=
  choose_from prefs mimes.

Definition offered (t : string) (mimes : list string) : bool :=
  existsb (String.eqb t) mimes.

(** The preference order stated on its own, to compare [choose_mime] with:
    image/png, then image/jpeg, then image/webp, then the first offered
    type that starts with text/plain, whatever its parameters, then
    whatever is offered first. *)
Definition choose_mime_spec (mimes : list string) : option string :=
  if offered "image/png" mimes then Some "image/png"%string
  else if offered "image/jpeg" mimes then Some "image/jpeg"%string
  else if offered "image/webp" mimes then Some "image/webp"%string
  else
    match find (fun m => startswith m "text/plain") mimes with
    | Some m => Some m
    | None => head mimes
    end.

(** One call of [set_clip]: the [wl-copy] command line it builds and the
    bytes it writes to the child's stdin.  What [wl-copy] then does is
    outside the program. *)
Record clip_write : Type := ClipWrite {
  cw_selection : json;
  cw_cmd : list json;
  cw_data : list byte;
}.

Definition set_clip (selection mime : json) (data : list byte) : clip_write :=
  let cmd :=
    if py_str_eq "primary" selection
    then [JStr "wl-copy"; JStr "--primary"; JStr "--type"; mime]
    else [JStr "wl-copy"; JStr "--type"; mime] in
  ClipWrite selection cmd data.

(** ** The session state shared by the two loops *)

(** One frame handed to [Peer.send]: the header dict and the payload. *)
Definition frame : Type := json * list byte.

Record session : Type := Session {
  last_local : gmap string json;   (* hash of the last snapshot sent *)
  last_remote : gmap string json;  (* hash declared by the last frame applied *)
  stop_evt : bool;
  inbound : list byte;             (* what the peer wrote and [f] has not read *)
  outbound : list frame;           (* frames written to the socket *)
  clipboard : list clip_write;     (* the calls of [set_clip], oldest first *)
}.

Definition with_last_local (m : gmap string json) (st : session) : session :=
  Session m (last_remote st) (stop_evt st) (inbound st) (outbound st) (clipboard st).

Definition with_last_remote (m : gmap string json) (st : session) : session :=
  Session (last_local st) m (stop_evt st) (inbound st) (outbound st) (clipboard st).

Definition with_stop (b : bool) (st : session) : session :=
  Session (last_local st) (last_remote st) b (inbound st) (outbound st) (clipboard st).

Definition with_inbound (bs : list byte) (st : session) : session :=
  Session (last_local st) (last_remote st) (stop_evt st) bs (outbound st) (clipboard st).

Definition with_outbound (fs : list frame) (st : session) : session :=
  Session (last_local st) (last_remote st) (stop_evt st) (inbound st) fs (clipboard st).

Definition with_clipboard (ws : list clip_write) (st : session) : session :=
  Session (last_local st) (last_remote st) (stop_evt st) (inbound st) (outbound st) ws.

(** How a thread stands: still in its loop, returned from its target, or
    ended by an exception nobody caught. *)
Inductive thread : Type :=
| Running
| Returned
| Died (e : exn).

Inductive ctl : Type := Continue | Break.

(** ** rx loop *)

(** [f.readline()]: up to and including the first newline, or what is left
    when the stream ends first; empty only at the end of the stream. *)
Fixpoint readline (s : list byte) : list byte * list byte :=
  match s with
  | [] => ([], [])
  | b :: rest =>
      if Byte.eqb b x0a then ([b], rest)
      else let '(l, r) := readline rest in (b :: l, r)
  end.

(** The longest [bytes] object the interpreter builds: [sys.maxsize],
    which is [2 ^ 63 - 1], less the 33 bytes of the object around the
    content (CPython on a 64-bit machine). *)
Definition bytes_max : Z := 2 ^ 63 - 34.

(** [f.read(n)] on the buffered reader, the stream ending after [s]:
    everything for [-1]; [ValueError] below [-1]; else the [n] bytes when
    they are there, and when the stream ends before them what is left of
    it, unless the reader cannot make room for [n] bytes: a size above
    [bytes_max] is refused with [OverflowError], by the conversion of the
    argument when it is above [sys.maxsize] and by the allocation of the
    result otherwise.  The size is tested after the bytes at hand, as no
    stream holds more than [bytes_max] bytes.  An allocation that fails
    for want of memory ([MemoryError], which depends on the machine) is
    left out: a size up to [bytes_max] is served. *)
Definition read (n : Z) (s : list byte) : res (list byte * list byte) :=
  if n <? -1 then Raise ValueError
  else if n =? -1 then Ok (s, [])
  else if n <=? Z.of_nat (length s)
  then Ok (take (Z.to_nat n) s, drop (Z.to_nat n) s)
  else if bytes_max <? n then Raise OverflowError
  else Ok (s, []).

(** [last_remote[sel] = h].  A list or a dict is not hashable.  The ledger
    holds the entries with a [str] key, the only ones [tx_loop] reads; a
    store under another hashable key leaves them as they are. *)
Definition ledger_set (sel h : json) (m : gmap string json)
  : res (gmap string json) :=
  match sel with
  | JStr s => Ok (<[s := h]> m)
  | JArr _ | JObj _ => Raise TypeError
  | _ => Ok m
  end.

(** The body of the [while] of [rx_loop]. *)
Definition rx_iter `{Runtime} (st : session) : res (ctl * session) :=
  let '(line, rest) := readline (inbound st) in
  let st := with_inbound rest st in
  match line with
  | [] => Ok (Break, st)                                  (* peer closed stream *)
  | _ :: _ =>
      match json_loads line with
      | None => Ok (Continue, st)                         (* bad header *)
      | Some hdr =>
          t ← hdr_get hdr "t" JNull;
          if negb (py_str_eq "put" t) then Ok (Continue, st)  (* unknown msg *)
          else
            sel ← hdr_get hdr "sel" (JStr "clipboard");
            mime ← hdr_get hdr "mime" (JStr "text/plain");
            len ← hdr_get hdr "len" (JInt 0);
            length_ ← py_int len;
            '(data, rest') ← read length_ rest;
            let st := with_inbound rest' st in
            if negb (Z.of_nat (length data) =? length_)
            then Ok (Break, st)                           (* length mismatch *)
            else
              h ← hdr_get hdr "hash" JNull;
              lr ← ledger_set sel h (last_remote st);
              Ok (Continue,
                  with_clipboard (clipboard st ++ [set_clip sel mime data])
                    (with_last_remote lr st))
      end
  end.

(** [rx_loop], for at most [fuel] tests of the loop condition.  The
    [stop_evt.set()] after the loop runs when the loop is left, not when an
    exception ends the thread. *)
Fixpoint rx_loop `{Runtime} (fuel : nat) (st : session) : thread * session :=
  match fuel with
  | O => (Running, st)
  | S n =>
      if stop_evt st then (Returned, with_stop true st)
      else
        match rx_iter st with
        | Ok (Continue, st') => rx_loop n st'
        | Ok (Break, st') => (Returned, with_stop true st')
        | Raise e => (Died e, st)
        end
  end.

(** ** tx loop *)

(** What one pass of the outbound loop finds outside the program: the
    results of [list_mimes] and [read_clip], and whether the two
    [sendall] of [Peer.send] go through. *)
Record env : Type := Env {
  list_mimes : string -> list string;
  read_clip : string -> string -> option (list byte);
  sendall_ok : json -> list byte -> bool;
}.

(** [Peer.send]: [True] and the frame on the wire, or [False]. *)
Definition peer_send (e : env) (header : json) (payload : list byte)
    (st : session) : bool * session :=
  if sendall_ok e header payload
  then (true, with_outbound (outbound st ++ [(header, payload)]) st)
  else (false, st).

Inductive skip_reason : Type :=
| NoMimes | NoMime | ReadFailed | SameLocalHash | FromRemote.

Inductive tx_outcome : Type :=
| Skip (why : skip_reason)
| Sent
| SendFailed.

Definition put_header (sel mime : string) (data : list byte) (h : string) : json :=
  JObj [ ("t", JStr "put"); ("sel", JStr sel); ("mime", JStr mime);
         ("len", JInt (Z.of_nat (length data))); ("hash", JStr h) ]%string.

(** [d[k]] *)
Definition ledger_get (m : gmap string json) (k : string) : res json :=
  match m !! k with
  | Some v => Ok v
  | None => Raise KeyError
  end.

(** The body of the [for] of [tx_loop], for one selection. *)
Definition tx_poll (e : env) (sel : string) (st : session)
  : res (tx_outcome * session) :=
  let mimes := list_mimes e sel in
  match mimes with
  | [] => Ok (Skip NoMimes, st)
  | _ :: _ =>
      match choose_mime mimes with
      | None | Some EmptyString => Ok (Skip NoMime, st)
      | Some mime =>
          match read_clip e sel mime with
          | None => Ok (Skip ReadFailed, st)
          | Some data =>
              let h := sha data mime in
              ll ← ledger_get (last_local st) sel;
              if py_str_eq h ll then Ok (Skip SameLocalHash, st)
              else
                lr ← ledger_get (last_remote st) sel;
                if py_str_eq h lr then Ok (Skip FromRemote, st)
                else
                  let header := put_header sel mime data h in
                  let '(ok, st) := peer_send e header data st in
                  if negb ok then Ok (SendFailed, with_stop true st)
                  else Ok (Sent, with_last_local (<[sel := JStr h]> (last_local st)) st)
          end
      end
  end.

(** The [for sel in selections], left early by [break] when a send fails;
    an exception leaves the state as the earlier selections made it. *)
Fixpoint tx_for (e : env) (sels : list string) (st : session)
  : option exn * session :=
  match sels with
  | [] => (None, st)
  | sel :: rest =>
      match tx_poll e sel st with
      | Ok (SendFailed, st') => (None, st')
      | Ok (_, st') => tx_for e rest st'
      | Raise x => (Some x, st)
      end
  end.

(** [tx_loop], one [env] for each pass of the [while]. *)
Fixpoint tx_loop (envs : list env) (selections : list string) (st : session)
  : thread * session :=
  if stop_evt st then (Returned, st)
  else
    match envs with
    | [] => (Running, st)
    | e :: rest =>
        match tx_for e selections st with
        | (None, st') => tx_loop rest selections st'
        | (Some x, st') => (Died x, st')
        end
    end.

(** ** session / endpoints *)

(** [["clipboard"] + (["primary"] if primary_ok else [])] *)
Definition selections_of (primary_ok : bool) : list string :=
  "clipboard"%string :: (if primary_ok then ["primary"%string] else []).

(** [{s: None for s in selections}] *)
Definition fresh_ledger (selections : list string) : gmap string json :=
  list_to_map (map (fun s => (s, JNull)) selections).

(** The state [run_session] builds before it starts the two threads. *)
Definition session_start (conn_in : list byte) (primary_ok : bool) : session :=
  let selections := selections_of primary_ok in
  Session (fresh_ledger selections) (fresh_ledger selections) false conn_in [] [].

(** The two threads run interleaved.  A turn of the inbound thread is one
    pass of its [while]; a turn of the outbound thread is one pass of its
    [while], that is one poll of every selection. *)
Inductive turn : Type :=
| RxTurn
| TxTurn (e : env).

Record threads : Type := Threads { rx_thread : thread; tx_thread : thread }.

Definition sched `{Runtime} (selections : list string)
    (p : threads * session) (t : turn) : threads * session :=
  let '(th, st) := p in
  match t with
  | RxTurn =>
      match rx_thread th with
      | Running => let '(r, st') := rx_loop 1 st in (Threads r (tx_thread th), st')
      | _ => p
      end
  | TxTurn e =>
      match tx_thread th with
      | Running =>
          let '(r, st') := tx_loop [e] selections st in (Threads (rx_thread th) r, st')
      | _ => p
      end
  end.

(** One accepted or established connection: what the peer writes before it
    closes, and how the threads of the session take turns. *)
Record connection : Type := Connection {
  conn_inbound : list byte;
  conn_schedule : list turn;
}.

Record session_run : Type := SessionRun {
  started : session;
  threads_end : threads;
  ended : session;
}.

(** [run_session]: the main thread waits until [stop] is set. *)
Definition run_session `{Runtime} (conn : connection) (primary_ok : bool)
  : session_run :=
  let st0 := session_start (conn_inbound conn) primary_ok in
  let '(th, st) :=
    fold_left (sched (selections_of primary_ok)) (conn_schedule conn)
              (Threads Running Running, st0) in
  SessionRun st0 th st.

Definition session_over (r : session_run) : bool := stop_evt (ended r).

(** [serve]: accept, run the session to its end, accept again. *)
Fixpoint serve `{Runtime} (conns : list connection) (primary_ok : bool)
  : list session_run :=
  match conns with
  | [] => []
  | c :: rest =>
      let r := run_session c primary_ok in
      r :: (if session_over r then serve rest primary_ok else [])
  end.

(** [connect]: [None] is an attempt that [create_connection] refuses. *)
Fixpoint connect `{Runtime} (attempts : list (option connection))
    (primary_ok : bool) : list session_run :=
  match attempts with
  | [] => []
  | None :: rest => connect rest primary_ok
  | Some c :: rest =>
      let r := run_session c primary_ok in
      r :: (if session_over r then connect rest primary_ok else [])
  end.

(** ** A reference runtime for closed examples

    A decoder for the fragment of JSON that headers are written in:
    objects, arrays, strings of printable ASCII without escapes, integers,
    [true], [false], [null], and white space.  Anything else is refused. *)

Module Ref.

Definition quote : ascii := "034"%char.

Definition is_ws (c : ascii) : bool :=
  existsb (Ascii.eqb c) [" "; "009"; "010"; "013"]%char.

Definition is_digit (c : ascii) : bool :=
  ((48 <=? nat_of_ascii c) && (nat_of_ascii c <=? 57))%nat.

Definition digit (c : ascii) : Z := Z.of_nat (nat_of_ascii c) - 48.

Fixpoint skip_ws (s : string) : string :=
  match s with
  | String c r => if is_ws c then skip_ws r else s
  | EmptyString => s
  end.

(** After the opening quote: the text up to the closing quote. *)
Fixpoint scan_string (s : string) : option (string * string) :=
  match s with
  | EmptyString => None
  | String c r =>
      if Ascii.eqb c quote then Some (EmptyString, r)
      else if Ascii.eqb c "092" || (nat_of_ascii c <? 32)%nat
              || (127 <=? nat_of_ascii c)%nat then None
      else '(t, r') ← scan_string r; Some (String c t, r')
  end.

Fixpoint scan_digits (s : string) (acc : Z) : Z * string :=
  match s with
  | String c r => if is_digit c then scan_digits r (10 * acc + digit c) else (acc, s)
  | EmptyString => (acc, s)
  end.

(** An integer literal without sign: no leading zero, no fraction or
    exponent after it. *)
Definition scan_int (s : string) : option (Z * string) :=
  match s with
  | String c r =>
      if negb (is_digit c) then None
      else
        let '(n, r') := if Ascii.eqb c "0" then (0, r) else scan_digits s 0 in
        match r' with
        | String c' _ =>
            if is_digit c' || existsb (Ascii.eqb c') ["."; "e"; "E"]%char
            then None else Some (n, r')
        | EmptyString => Some (n, r')
        end
  | EmptyString => None
  end.

(** [d[k] = v] on a dict in insertion order. *)
Fixpoint dict_set (k : string) (v : json) (d : list (string * json))
  : list (string * json) :=
  match d with
  | [] => [(k, v)]
  | (k', v') :: rest =>
      if String.eqb k k' then (k, v) :: rest else (k', v') :: dict_set k v rest
  end.

Definition literal (s : string) : option (json * string) :=
  if String.prefix "true" s then Some (JBool true, String.substring 4 (String.length s - 4) s)
  else if String.prefix "false" s then Some (JBool false, String.substring 5 (String.length s - 5) s)
  else if String.prefix "null" s then Some (JNull, String.substring 4 (String.length s - 4) s)
  else None.

Fixpoint parse_value (fuel : nat) (s : string) : option (json * string) :=
  match fuel with
  | O => None
  | S n =>
      match skip_ws s with
      | EmptyString => None
      | String c r =>
          if Ascii.eqb c "{" then
            match skip_ws r with
            | String "}" r' => Some (JObj [], r')
            | r1 => parse_members n r1 []
            end
          else if Ascii.eqb c "[" then
            match skip_ws r with
            | String "]" r' => Some (JArr [], r')
            | r1 => parse_elems n r1 []
            end
          else if Ascii.eqb c quote then
            '(t, r') ← scan_string r; Some (JStr t, r')
          else if Ascii.eqb c "-" then
            '(z, r') ← scan_int r; Some (JInt (- z), r')
          else if is_digit c then
            '(z, r') ← scan_int (String c r); Some (JInt z, r')
          else literal (String c r)
      end
  end
with parse_members (fuel : nat) (s : string) (acc : list (string * json))
  : option (json * string) :=
  match fuel with
  | O => None
  | S n =>
      match s with
      | String c r =>
          if negb (Ascii.eqb c quote) then None
          else
            '(k, r1) ← scan_string r;
            match skip_ws r1 with
            | String ":" r2 =>
                '(v, r3) ← parse_value n r2;
                match skip_ws r3 with
                | String "," r4 => parse_members n (skip_ws r4) (dict_set k v acc)
                | String "}" r4 => Some (JObj (dict_set k v acc), r4)
                | _ => None
                end
            | _ => None
            end
      | EmptyString => None
      end
  end
with parse_elems (fuel : nat) (s : string) (acc : list json)
  : option (json * string) :=
  match fuel with
  | O => None
  | S n =>
      '(v, r1) ← parse_value n s;
      match skip_ws r1 with
      | String "," r2 => parse_elems n r2 (acc ++ [v])
      | String "]" r2 => Some (JArr (acc ++ [v]), r2)
      | _ => None
      end
  end.

Definition loads (line : list byte) : option json :=
  let s := string_of_list_byte line in
  '(v, r) ← parse_value (2 * String.length s + 2) s;
  match skip_ws r with
  | EmptyString => Some v
  | String _ _ => None
  end.

(** [int] on a decimal literal with an optional sign. *)
Definition int_of (s : string) : res Z :=
  let body := match s with
              | String "-" r | String "+" r => r
              | _ => s
              end in
  match body, scan_digits body 0 with
  | String c _, (n, EmptyString) =>
      if is_digit c
      then Ok (match s with String "-" _ => - n | _ => n end)
      else Raise ValueError
  | _, _ => Raise ValueError
  end.

Definition runtime : Runtime := {| json_loads := loads; int_of_str := int_of |}.

(** The bytes of a header line: the text, then a newline. *)
Definition line (s : string) : list byte := list_byte_of_string s ++ [x0a].

(** [{"t": "put"}] and other texts with quotes, from their parts. *)
Definition q (s : string) : string := String quote s +:+ String quote EmptyString.

End Ref.

(** ** Sample traffic for the closed examples *)

Module Sample.
Import Ref.

Definition hello : list byte := list_byte_of_string "hello".

Definition field (k v : string) : string := q k +:+ ": " +:+ v.

(** [{"t": "put", "sel": <sel>, "mime": "text/plain", "len": <len>, "hash": <hash>}] *)
Definition put_text (sel len hash : string) : string :=
  "{" +:+ field "t" (q "put") +:+ ", " +:+ field "sel" (q sel) +:+ ", "
      +:+ field "mime" (q "text/plain") +:+ ", " +:+ field "len" len +:+ ", "
      +:+ field "hash" hash +:+ "}".

(** The dict [json.loads] makes of [put_text sel len hash]. *)
Definition put_dict (sel : string) (len : Z) (hash : json)
  : list (string * json) :=
  [ ("t", JStr "put"); ("sel", JStr sel); ("mime", JStr "text/plain");
    ("len", JInt len); ("hash", hash) ]%string.

(** A frame for the clipboard whose declared hash is not the digest of
    its content, and the same for the primary selection. *)
Definition hdr_wrong : string := put_text "clipboard" "5" (q "00ff").
Definition frame_wrong : list byte := line hdr_wrong ++ hello.

Definition hdr_primary : string := put_text "primary" "5" (q "00ff").
Definition frame_primary : list byte := line hdr_primary ++ hello.

(** A header that declares 100 bytes, then 80 bytes and the end. *)
Definition hdr_cut : string := put_text "clipboard" "100" (q "00ff").
Definition frame_cut : list byte := line hdr_cut ++ repeat "x"%byte 80.

(** A header that declares [2 ^ 63] bytes, then five bytes and the end. *)
Definition hdr_huge : string :=
  put_text "clipboard" "9223372036854775808" (q "00ff").
Definition frame_huge : list byte := line hdr_huge ++ hello.

(** [{"t": "put", "sel": ["a"], "mime": "text/plain", "len": 5,
    "hash": "00ff"}] and five bytes: the selection is a list. *)
Definition hdr_listed : string :=
  "{" +:+ field "t" (q "put") +:+ ", "
      +:+ field "sel" ("[" +:+ q "a" +:+ "]") +:+ ", "
      +:+ field "mime" (q "text/plain") +:+ ", " +:+ field "len" "5" +:+ ", "
      +:+ field "hash" (q "00ff") +:+ "}".
Definition dict_listed : list (string * json) :=
  [ ("t", JStr "put"); ("sel", JArr [JStr "a"]); ("mime", JStr "text/plain");
    ("len", JInt 5); ("hash", JStr "00ff") ]%string.
Definition frame_listed : list byte := line hdr_listed ++ hello.

(** [{"t": "put", "len": 5}] and five bytes. *)
Definition hdr_bare : string :=
  "{" +:+ field "t" (q "put") +:+ ", " +:+ field "len" "5" +:+ "}".
Definition frame_bare : list byte := line hdr_bare ++ hello.

(** [{"t": "put"}] alone. *)
Definition hdr_only_t : string := "{" +:+ field "t" (q "put") +:+ "}".

(** [{"t": "ping"}], or a line that is no JSON, then a frame. *)
Definition hdr_ping : string := "{" +:+ field "t" (q "ping") +:+ "}".
Definition ping_then_frame : list byte := line hdr_ping ++ frame_wrong.

Definition garbage_then_frame : list byte := line "garbage" ++ frame_wrong.

(** A clipboard that offers text and an image with the same [content],
    and a socket that is [up] or not. *)
Definition desk (content : list byte) (up : bool) : env :=
  Env (fun _ => ["text/plain"; "image/png"]%string)
      (fun _ _ => Some content)
      (fun _ _ => up).

(** A connection on which the peer sends one frame and closes, and one on
    which it sends nothing while the local clipboard is polled once. *)
Definition conn_a : connection := Connection frame_wrong [RxTurn; RxTurn].
Definition conn_b : connection := Connection [] [TxTurn (desk hello true)].

End Sample.

(** ** The invariant of a session *)

(** Every selection the outbound loop polls has an entry in both ledgers. *)
Definition polled (sels : list string) (st : session) : Prop :=
  forall s, s ∈ sels ->
    is_Some (last_local st !! s) /\ is_Some (last_remote st !! s).


(** ** The bytes on the wire *)

(** [json.dumps(header)], then [.encode("utf-8")]; [None] when it raises,
    in which case [Peer.send] returns [False]. *)
Class Dumper : Type := {
  json_dumps : json -> option (list byte);
}.

(** What the two [sendall] of [Peer.send] write for one frame: the header
    text, a newline, the payload. *)
Definition wire_of_frame `{Dumper} (fr : frame) : option (list byte) :=
  msg ← json_dumps (fst fr); Some (msg ++ [x0a] ++ snd fr).

(** What a peer has written once it has sent [frames], oldest first. *)
Fixpoint wire `{Dumper} (frames : list frame) : option (list byte) :=
  match frames with
  | [] => Some []
  | fr :: rest => b ← wire_of_frame fr; bs ← wire rest; Some (b ++ bs)
  end.

Definition no_newline (msg : list byte) : bool :=
  forallb (fun b => negb (Byte.eqb b x0a)) msg.

(** The JSON library carries the header of [fr] over: [json.dumps] gives
    one line [msg], and [json.loads] gives the header back from it. *)
Definition carried `{Runtime} `{Dumper} (fr : frame) (msg : list byte) : Prop :=
  json_dumps (fst fr) = Some msg
  /\ no_newline msg = true
  /\ json_loads (msg ++ [x0a]) = Some (fst fr).

(** A field of the header of a frame, [None] when it has none. *)
Definition frame_field (k : string) (fr : frame) : json :=
  match fst fr with
  | JObj d => default JNull (dict_get k d)
  | _ => JNull
  end.

(** The hash declared by the last of [frames] whose header names [sel],
    [None] when there is none. *)
Definition last_sent (sel : string) (frames : list frame) : json :=
  fold_left
    (fun acc fr =>
       if py_str_eq sel (frame_field "sel" fr) then frame_field "hash" fr else acc)
    frames JNull.

(** A frame whose header is a put header for its payload. *)
Definition put_frame (fr : frame) : Prop :=
  exists sel mime h, fst fr = put_header sel mime (snd fr) h.

(** What the receiving side makes of a put frame: the call of [set_clip],
    and the entry of [last_remote]. *)
Definition applied (fr : frame) : clip_write :=
  set_clip (frame_field "sel" fr) (frame_field "mime" fr) (snd fr).

Definition received (m : gmap string json) (fr : frame) : gmap string json :=
  match frame_field "sel" fr with
  | JStr s => <[s := frame_field "hash" fr]> m
  | _ => m
  end.

(** A frame as [tx_loop] builds it from a snapshot of one of [sels]. *)
Definition sent_snapshot (sels : list string) (fr : frame) : Prop :=
  exists sel mime,
    sel ∈ sels /\ mime <> EmptyString
    /\ fst fr = put_header sel mime (snd fr) (sha (snd fr) mime).

(** ** What is hashed, and how the threads are given turns *)

(** The bytes [sha] feeds to SHA-256: [mime.encode() + b"\0" + data]. *)
Definition hashed (data : list byte) (mime : string) : list byte :=
  list_byte_of_string mime ++ x00 :: data.

Definition nul_free (mime : string) : bool :=
  forallb (fun b => negb (Byte.eqb b x00)) (list_byte_of_string mime).

(** The turns of the inbound thread in a schedule. *)
Fixpoint rx_turns (turns : list turn) : nat :=
  match turns with
  | [] => O
  | RxTurn :: rest => S (rx_turns rest)
  | TxTurn _ :: rest => rx_turns rest
  end.

(** ** Addresses and flags *)

(** [s.split(sep)] for a separator of one character. *)
Fixpoint split_on (sep : ascii) (s : string) : list string :=
  match s with
  | EmptyString => [EmptyString]
  | String c r =>
      if Ascii.eqb c sep then EmptyString :: split_on sep r
      else
        match split_on sep r with
        | w :: ws => String c w :: ws
        | [] => [String c EmptyString]
        end
  end.

(** How many times [c] occurs in [s]. *)
Fixpoint occurs (c : ascii) (s : string) : nat :=
  match s with
  | EmptyString => O
  | String c' r => ((if Ascii.eqb c' c then 1 else 0) + occurs c r)%nat
  end.

(** [host, port = bind.split(":"); port = int(port)], the first line of
    [serve] and of [connect]. *)
Definition parse_addr `{Runtime} (addr : string) : res (string * Z) :=
  match split_on ":" addr with
  | [host; port] => port ← int_of_str port; Ok (host, port)
  | _ => Raise ValueError
  end.

(** [primary_ok = have_primary() and not args.no_primary], in [main]. *)
Definition primary_ok_of (have_primary no_primary : bool) : bool :=
  have_primary && negb no_primary.

(** ** A reference printer for closed examples

    [json.dumps] on the fragment of [Ref.loads]: strings of printable ASCII
    without quote or backslash, integers, [true], [false], [null], arrays
    and objects.  Anything else is refused. *)

Module RefPrint.

Definition plain (c : ascii) : bool :=
  negb (Ascii.eqb c Ref.quote || Ascii.eqb c "092"
        || (nat_of_ascii c <? 32)%nat || (127 <=? nat_of_ascii c)%nat).

Fixpoint all_plain (s : string) : bool :=
  match s with
  | EmptyString => true
  | String c r => plain c && all_plain r
  end.

Definition str (s : string) : option string :=
  if all_plain s then Some (Ref.q s) else None.

Definition digits (n : Z) : string :=
  DecimalString.NilZero.string_of_int (Z.to_int n).

(** Items joined by [", "]. *)
Fixpoint join (items : list string) : string :=
  match items with
  | [] => EmptyString
  | [x] => x
  | x :: rest => x +:+ ", " +:+ join rest
  end.

Fixpoint dumps (v : json) : option string :=
  match v with
  | JNull => Some "null"%string
  | JBool b => Some (if b then "true" else "false")%string
  | JInt n => Some (digits n)
  | JFloat _ => None
  | JStr s => str s
  | JArr xs =>
      items ← (fix each (l : list json) : option (list string) :=
                 match l with
                 | [] => Some []
                 | x :: r => t ← dumps x; ts ← each r; Some (t :: ts)
                 end) xs;
      Some ("[" +:+ join items +:+ "]")
  | JObj kvs =>
      items ← (fix each (l : list (string * json)) : option (list string) :=
                 match l with
                 | [] => Some []
                 | (k, x) :: r =>
                     kt ← str k; t ← dumps x; ts ← each r;
                     Some ((kt +:+ ": " +:+ t) :: ts)
                 end) kvs;
      Some ("{" +:+ join items +:+ "}")
  end.

Definition dumper : Dumper :=
  {| json_dumps := fun v => list_byte_of_string <$> dumps v |}.

End RefPrint.

(** ** Reading the offered types

    [list_mimes] after it has run [wl-paste -l]: the text is
    [out.decode("utf-8", "ignore")], a Python [str], here the list of its
    code points. *)

Module Wl.

(** [c.isspace()], the characters that [str.strip()] removes. *)
Definition is_space (c : Z) : bool :=
  (9 <=? c) && (c <=? 13) || (28 <=? c) && (c <=? 32)
  || (c =? 0x85) || (c =? 0xa0) || (c =? 0x1680)
  || (0x2000 <=? c) && (c <=? 0x200a)
  || (c =? 0x2028) || (c =? 0x2029) || (c =? 0x202f) || (c =? 0x205f)
  || (c =? 0x3000).

(** The line boundaries of [str.splitlines()]. *)
Definition is_break (c : Z) : bool :=
  (10 <=? c) && (c <=? 13) || (28 <=? c) && (c <=? 30)
  || (c =? 0x85) || (c =? 0x2028) || (c =? 0x2029).

Fixpoint lstrip (s : list Z) : list Z :=
  match s with
  | c :: r => if is_space c then lstrip r else s
  | [] => []
  end.

(** [s.strip()] *)
Definition strip (s : list Z) : list Z :=
  reverse (lstrip (reverse (lstrip s))).

(** [s.splitlines()], with the line read so far, newest character first,
    and whether the last character was a carriage return that ended a
    line: the line feed after it belongs to the same boundary. *)
Fixpoint lines (s cur : list Z) (after_cr : bool) : list (list Z) :=
  match s with
  | [] =>
      match cur with
      | [] => []
      | _ :: _ => [reverse cur]
      end
  | c :: r =>
      if is_break c then
        if (c =? 10) && after_cr then lines r cur false
        else reverse cur :: lines r [] (c =? 13)
      else lines r (c :: cur) false
  end.

Definition splitlines (s : list Z) : list (list Z) := lines s [] false.

(** [[l.strip() for l in ls if l.strip()]] *)
Fixpoint stripped (ls : list (list Z)) : list (list Z) :=
  match ls with
  | [] => []
  | l :: r =>
      match strip l with
      | [] => stripped r
      | m => m :: stripped r
      end
  end.

(** The result of [list_mimes] when [wl-paste -l] ended with [rc] and
    wrote [text]: nothing on failure, the lines that are not blank
    otherwise. *)
Definition list_mimes (rc : Z) (text : list Z) : list (list Z) :=
  if negb (rc =? 0) then [] else stripped (splitlines text).

(** ["\n".join(ls)] *)
Fixpoint join_lines (ls : list (list Z)) : list Z :=
  match ls with
  | [] => []
  | [l] => l
  | l :: r => l ++ 10 :: join_lines r
  end.

(** A type name as [list_mimes] returns them: not empty, no white space
    at either end, no line boundary inside. *)
Definition clean (m : list Z) : Prop :=
  m <> []
  /\ (forall c, head m = Some c -> is_space c = false)
  /\ (forall c, last m = Some c -> is_space c = false)
  /\ Forall (fun c => is_break c = false) m.

(** The code points of an ASCII text. *)
Definition of_string (s : string) : list Z :=
  map (fun b => Z.of_N (Byte.to_N b)) (list_byte_of_string s).

End Wl.

(** ** More sample traffic *)

Module Traffic.
Import Ref.

(** The frame for "hello" offered as text and as an image. *)
Definition fr_hello : frame :=
  (put_header "clipboard" "image/png" Sample.hello (sha Sample.hello "image/png"),
   Sample.hello).

(** A payload with a newline in it, and the frame that carries it. *)
Definition two_lines : list byte := [x61; x0a; x62].

Definition fr_text : frame :=
  (put_header "clipboard" "text/plain" two_lines "00ff", two_lines).

Definition fr_primary : frame :=
  (put_header "primary" "text/plain" Sample.hello "00aa", Sample.hello).

(** What [json.dumps] writes for the header of a frame. *)
Definition header_bytes (fr : frame) : list byte :=
  default [] (@json_dumps RefPrint.dumper (fst fr)).

(** A frame for a selection that does not exist. *)
Definition hdr_bogus : string := Sample.put_text "bogus" "5" (q "00ff").
Definition frame_bogus : list byte := line hdr_bogus ++ Sample.hello.

(** The peer sends two bytes and closes; the inbound thread has three
    turns. *)
Definition conn_short : connection :=
  Connection (line "x")
    [RxTurn; TxTurn (Sample.desk Sample.hello true); RxTurn; RxTurn].

End Traffic.

(** * Properties *)

(** ** The content hash *)

Example sha256_constants :
  length Sha256.K = 64%nat
  /\ head Sha256.K = Some 0x428a2f98 /\ last Sha256.K = Some 0xc67178f2
  /\ head Sha256.H0 = Some 0x6a09e667 /\ last Sha256.H0 = Some 0x5be0cd19.
Proof. vm_compute. repeat split. Qed.

Example sha256_abc :
  Sha256.hexdigest (list_byte_of_string "abc")
  = "ba7816bf8f01cfea414140de5dae2223b00361a396177a9cb410ff61f20015ad"%string.
Proof. vm_compute. reflexivity. Qed.

Example sha256_empty :
  Sha256.hexdigest []
  = "e3b0c44298fc1c149afbf4c8996fb92427ae41e4649b934ca495991b7852b855"%string.
Proof. vm_compute. reflexivity. Qed.

Example sha256_two_blocks :
  Sha256.hexdigest (repeat "a"%byte 200)
  = "c2a908d98f5df987ade41b5fce213067efbcc21ef2240212a41e54b5e7c28ae5"%string.
Proof. vm_compute. reflexivity. Qed.

Example sha_hello :
  sha (list_byte_of_string "hello") "text/plain"
  = "97ef98f924d843749ab0e7f56c8362af9c86e7d214492543f8dbfb6cdf679037"%string.
Proof. vm_compute. reflexivity. Qed.

(** The digest has 32 octets, its hexadecimal form 64 characters. *)
Lemma sha256_compress_length (h block : list Z) :
  length h = 8%nat -> length (Sha256.compress h block) = 8%nat.
Proof.
  intros Hh. unfold Sha256.compress.
  rewrite length_map, length_combine, Hh. reflexivity.
Qed.

Lemma sha256_blocks_length (n : nat) (ws h : list Z) :
  length h = 8%nat -> length (Sha256.blocks n ws h) = 8%nat.
Proof.
  revert ws h. induction n as [|n IH]; intros ws h Hh; simpl; [exact Hh|].
  apply IH. now apply sha256_compress_length.
Qed.

Lemma sha256_hex_length (bs : list Z) :
  String.length (Sha256.hex bs) = (2 * length bs)%nat.
Proof. induction bs as [|b bs IH]; simpl; [reflexivity|]. rewrite IH. lia. Qed.

Lemma sha256_be4_length (l : list Z) :
  length (flat_map (Sha256.be 4) l) = (4 * length l)%nat.
Proof.
  induction l as [|x l IH]; [reflexivity|].
  change (flat_map (Sha256.be 4) (x :: l))
    with (Sha256.be 4 x ++ flat_map (Sha256.be 4) l).
  rewrite length_app, IH. simpl. lia.
Qed.

Lemma sha_length (data : list byte) (mime : string) :
  String.length (sha data mime) = 64%nat.
Proof.
  unfold sha, Sha256.hexdigest, Sha256.digest.
  rewrite sha256_hex_length, sha256_be4_length, sha256_blocks_length.
  - reflexivity.
  - vm_compute. reflexivity.
Qed.

(** ** Content-type choice *)

Lemma find_eqb (p : string) (mimes : list string) :
  find (fun m => String.eqb m p) mimes = if offered p mimes then Some p else None.
Proof.
  unfold offered. induction mimes as [|m ms IH]; simpl; [reflexivity|].
  rewrite (String.eqb_sym p m).
  destruct (String.eqb m p) eqn:E; simpl.
  - apply String.eqb_eq in E. now subst.
  - exact IH.
Qed.

Lemma find_ext {A} (f g : A -> bool) (l : list A) :
  (forall x, f x = g x) -> find f l = find g l.
Proof.
  intros Hfg. induction l as [|x xs IH]; simpl; [reflexivity|].
  rewrite Hfg, IH. reflexivity.
Qed.

(** A preference that is not a text type is met by that very type only. *)
Lemma mime_hit_exact (pref m : string) :
  startswith pref "text/plain" = false -> mime_hit pref m = String.eqb m pref.
Proof. intros Hp. unfold mime_hit. rewrite Hp. simpl. apply orb_false_r. Qed.

(** A text preference is met by every type that starts with text/plain. *)
Lemma mime_hit_text (pref m : string) :
  startswith pref "text/plain" = true ->
  mime_hit pref m = startswith m "text/plain".
Proof.
  intros Hp. unfold mime_hit. rewrite Hp. simpl.
  destruct (String.eqb m pref) eqn:E; simpl; [|reflexivity].
  apply String.eqb_eq in E. subst. now rewrite Hp.
Qed.

(** C7, as the code has it.  For every list of offered types
    [choose_mime] follows the fixed preference order: image/png, then
    image/jpeg, then image/webp, then the first offered type that starts
    with text/plain, every variant of plain text counting as plain text
    whether its charset is UTF-8 or not, then the first type offered, if
    any.  For [text/plain, image/png] it is image/png, and for
    [text/plain;charset=utf-8] it is that text variant. *)
Theorem choose_mime_preference_order :
  (forall mimes, choose_mime mimes = choose_mime_spec mimes)
  /\ choose_mime ["text/plain"; "image/png"]%string = Some "image/png"%string
  /\ choose_mime ["text/plain;charset=utf-8"]%string
     = Some "text/plain;charset=utf-8"%string.
Proof.
  split; [|split; reflexivity].
  intros mimes. unfold choose_mime, choose_mime_spec, prefs. simpl.
  rewrite (find_ext _ _ mimes (fun m => mime_hit_exact "image/png" m eq_refl)).
  rewrite find_eqb. destruct (offered "image/png" mimes); [reflexivity|].
  rewrite (find_ext _ _ mimes (fun m => mime_hit_exact "image/jpeg" m eq_refl)).
  rewrite find_eqb. destruct (offered "image/jpeg" mimes); [reflexivity|].
  rewrite (find_ext _ _ mimes (fun m => mime_hit_exact "image/webp" m eq_refl)).
  rewrite find_eqb. destruct (offered "image/webp" mimes); [reflexivity|].
  rewrite (find_ext _ _ mimes
             (fun m => mime_hit_text "text/plain;charset=utf-8" m eq_refl)).
  rewrite (find_ext (mime_hit "text/plain") _ mimes
             (fun m => mime_hit_text "text/plain" m eq_refl)).
  destruct (find _ mimes); reflexivity.
Qed.

(** C7 fails on the code as it is worded: plain text is offered and no
    image is, yet the chosen type is the UTF-16 variant offered before it,
    which is neither text/plain nor a UTF-8 variant of it. *)
Lemma choose_mime_takes_any_text_variant :
  let mimes := ["text/plain;charset=utf-16"; "text/plain"]%string in
  offered "text/plain" mimes = true
  /\ choose_mime mimes = Some "text/plain;charset=utf-16"%string
  /\ choose_mime mimes <> Some "text/plain"%string
  /\ choose_mime mimes <> Some "text/plain;charset=utf-8"%string.
Proof. repeat split; discriminate. Qed.

(** ** The inbound loop *)

Section Inbound.
Context `{R : Runtime}.

Lemma readline_app (s line rest : list byte) :
  readline s = (line, rest) -> s = line ++ rest.
Proof.
  revert line rest. induction s as [|b s IH]; simpl; intros line rest E.
  - now inversion E.
  - destruct (Byte.eqb b x0a).
    + now inversion E.
    + destruct (readline s) as [l r]. inversion E; subst.
      simpl. f_equal. now apply IH.
Qed.

(** A line that is not empty takes at least one byte off the stream. *)
Lemma readline_shorter (s line rest : list byte) :
  readline s = (line, rest) -> line <> [] ->
  (length rest < length s)%nat.
Proof.
  intros E Hne. apply readline_app in E. subst s.
  rewrite length_app. destruct line; [congruence|]. simpl. lia.
Qed.

(** Only the end of the stream gives an empty line. *)
Lemma readline_eof (s rest : list byte) :
  readline s = ([], rest) -> s = [] /\ rest = [].
Proof.
  destruct s as [|b s]; simpl; intros E.
  - inversion E. auto.
  - destruct (Byte.eqb b x0a); [discriminate|].
    destruct (readline s). discriminate.
Qed.

(** [f.read(n)] with enough bytes left returns exactly [n] of them. *)
Lemma read_full (n : Z) (s : list byte) :
  0 <= n <= Z.of_nat (length s) ->
  read n s = Ok (take (Z.to_nat n) s, drop (Z.to_nat n) s)
  /\ Z.of_nat (length (take (Z.to_nat n) s)) = n.
Proof.
  intros Hn. unfold read.
  destruct (Z.ltb_spec n (-1)); [lia|].
  destruct (Z.eqb_spec n (-1)); [lia|].
  destruct (Z.leb_spec n (Z.of_nat (length s))); [|lia].
  split; [reflexivity|]. rewrite length_take. lia.
Qed.

(** [f.read(n)] when the stream ends before [n] bytes: what is left, for
    a size the reader accepts. *)
Lemma read_short (n : Z) (s : list byte) :
  Z.of_nat (length s) < n -> n <= bytes_max -> read n s = Ok (s, []).
Proof.
  intros Hn Hmax. unfold read.
  destruct (Z.ltb_spec n (-1)); [lia|].
  destruct (Z.eqb_spec n (-1)); [lia|].
  destruct (Z.leb_spec n (Z.of_nat (length s))); [lia|].
  destruct (Z.ltb_spec bytes_max n); [lia|]. reflexivity.
Qed.

(** [f.read(n)] for a size the reader refuses. *)
Lemma read_overflow (n : Z) (s : list byte) :
  Z.of_nat (length s) < n -> bytes_max < n -> read n s = Raise OverflowError.
Proof.
  intros Hn Hmax. unfold read.
  destruct (Z.ltb_spec n (-1)); [lia|].
  destruct (Z.eqb_spec n (-1)); [lia|].
  destruct (Z.leb_spec n (Z.of_nat (length s))); [lia|].
  destruct (Z.ltb_spec bytes_max n); [|lia]. reflexivity.
Qed.

(** What [f.read] returns is cut from the stream. *)
Lemma read_length (n : Z) (s data rest : list byte) :
  read n s = Ok (data, rest) -> (length rest <= length s)%nat.
Proof.
  unfold read. destruct (n <? -1); [discriminate|].
  destruct (n =? -1); [intros [= <- <-]; simpl; lia|].
  destruct (n <=? Z.of_nat (length s)).
  - intros [= <- <-]. rewrite length_drop. lia.
  - destruct (bytes_max <? n); [discriminate|]. intros [= <- <-]. simpl. lia.
Qed.

(** The pass of the loop on a line that is not a header. *)
Lemma rx_iter_bad_header (st : session) (line rest : list byte) :
  readline (inbound st) = (line, rest) -> line <> [] ->
  json_loads line = None ->
  rx_iter st = Ok (Continue, with_inbound rest st).
Proof.
  intros Hrl Hne Hj. unfold rx_iter. rewrite Hrl.
  destruct line; [congruence|]. now rewrite Hj.
Qed.

(** The pass of the loop on a header dict whose [t] is not ["put"]. *)
Lemma rx_iter_unknown (st : session) (line rest : list byte)
    (d : list (string * json)) :
  readline (inbound st) = (line, rest) -> line <> [] ->
  json_loads line = Some (JObj d) ->
  py_str_eq "put" (default JNull (dict_get "t" d)) = false ->
  rx_iter st = Ok (Continue, with_inbound rest st).
Proof.
  intros Hrl Hne Hj Ht. unfold rx_iter. rewrite Hrl.
  destruct line; [congruence|]. rewrite Hj. simpl. now rewrite Ht.
Qed.

(** The pass of the loop on a put header followed by its whole payload. *)
Lemma rx_iter_put (st : session) (line rest : list byte)
    (d : list (string * json)) (L : Z) (lr : gmap string json) :
  readline (inbound st) = (line, rest) -> line <> [] ->
  json_loads line = Some (JObj d) ->
  dict_get "t" d = Some (JStr "put") ->
  py_int (default (JInt 0) (dict_get "len" d)) = Ok L ->
  0 <= L <= Z.of_nat (length rest) ->
  ledger_set (default (JStr "clipboard") (dict_get "sel" d))
             (default JNull (dict_get "hash" d)) (last_remote st) = Ok lr ->
  rx_iter st =
    Ok (Continue,
        Session (last_local st) lr (stop_evt st)
          (drop (Z.to_nat L) rest) (outbound st)
          (clipboard st ++
             [set_clip (default (JStr "clipboard") (dict_get "sel" d))
                       (default (JStr "text/plain") (dict_get "mime" d))
                       (take (Z.to_nat L) rest)])).
Proof.
  intros Hrl Hne Hj Ht Hlen HL Hset. unfold rx_iter. rewrite Hrl.
  destruct line; [congruence|]. rewrite Hj. simpl. rewrite Ht. simpl.
  rewrite Hlen. simpl.
  destruct (read_full L rest HL) as [-> Hfull]. simpl.
  rewrite Hfull, Z.eqb_refl. simpl.
  unfold with_inbound at 1. simpl. rewrite Hset. reflexivity.
Qed.

(** The pass of the loop on a put header whose payload is cut short. *)
Lemma rx_iter_short (st : session) (line rest : list byte)
    (d : list (string * json)) (L : Z) :
  readline (inbound st) = (line, rest) -> line <> [] ->
  json_loads line = Some (JObj d) ->
  dict_get "t" d = Some (JStr "put") ->
  py_int (default (JInt 0) (dict_get "len" d)) = Ok L ->
  Z.of_nat (length rest) < L -> L <= bytes_max ->
  rx_iter st = Ok (Break, with_inbound [] st).
Proof.
  intros Hrl Hne Hj Ht Hlen HL Hmax. unfold rx_iter. rewrite Hrl.
  destruct line; [congruence|]. rewrite Hj. simpl. rewrite Ht. simpl.
  rewrite Hlen. simpl. rewrite (read_short L rest HL Hmax). simpl.
  destruct (Z.eqb_spec (Z.of_nat (length rest)) L); [lia|]. reflexivity.
Qed.

(** The pass of the loop on a put header whose payload is cut short and
    whose length the reader refuses: nothing catches the exception. *)
Lemma rx_iter_overflow (st : session) (line rest : list byte)
    (d : list (string * json)) (L : Z) :
  readline (inbound st) = (line, rest) -> line <> [] ->
  json_loads line = Some (JObj d) ->
  dict_get "t" d = Some (JStr "put") ->
  py_int (default (JInt 0) (dict_get "len" d)) = Ok L ->
  Z.of_nat (length rest) < L -> bytes_max < L ->
  rx_iter st = Raise OverflowError.
Proof.
  intros Hrl Hne Hj Ht Hlen HL Hmax. unfold rx_iter. rewrite Hrl.
  destruct line; [congruence|]. rewrite Hj. simpl. rewrite Ht. simpl.
  rewrite Hlen. simpl. rewrite (read_overflow L rest HL Hmax). reflexivity.
Qed.

End Inbound.

(** The inbound loop stops within as many passes as the peer sent bytes,
    plus one: every pass that continues has read a line. *)
Lemma rx_iter_consumes `{Runtime} (st st' : session) :
  rx_iter st = Ok (Continue, st') ->
  (length (inbound st') < length (inbound st))%nat.
Proof.
  unfold rx_iter. destruct (readline (inbound st)) as [line rest] eqn:Hrl.
  destruct line as [|b line]; [discriminate|].
  assert (Hlt : (length rest < length (inbound st))%nat)
    by (eapply readline_shorter; [exact Hrl | discriminate]).
  destruct (json_loads (b :: line)) as [hdr|]; simpl.
  2:{ intros [= <-]. exact Hlt. }
  destruct (hdr_get hdr "t" JNull) as [t|]; simpl; [|discriminate].
  destruct (negb (py_str_eq "put" t)); [intros [= <-]; exact Hlt|].
  destruct (hdr_get hdr "sel" _) as [sel|]; simpl; [|discriminate].
  destruct (hdr_get hdr "mime" _) as [mime|]; simpl; [|discriminate].
  destruct (hdr_get hdr "len" _) as [len|]; simpl; [|discriminate].
  destruct (py_int len) as [L|]; simpl; [|discriminate].
  destruct (read L rest) as [[data rest']|] eqn:Hrd; simpl; [|discriminate].
  destruct (negb _); [discriminate|].
  destruct (hdr_get hdr "hash" _) as [h|]; simpl; [|discriminate].
  destruct (ledger_set sel h _) as [lr|]; simpl; [|discriminate].
  intros [= <-]. simpl.
  apply read_length in Hrd. lia.
Qed.

Lemma rx_loop_terminates `{Runtime} (fuel : nat) (st : session) :
  (length (inbound st) < fuel)%nat -> fst (rx_loop fuel st) <> Running.
Proof.
  revert st. induction fuel as [|n IH]; intros st Hlt; [lia|]. simpl.
  destruct (stop_evt st); [discriminate|].
  destruct (rx_iter st) as [[[|] st']|e] eqn:E; simpl; try discriminate.
  apply IH. apply rx_iter_consumes in E. lia.
Qed.

Section InboundProperties.
Context `{R : Runtime}.

(** C2 fails on the code at a length the reader refuses.  A put header
    declares [L] bytes, the stream ends before [L] bytes of payload, and
    [L] is above [bytes_max]: [f.read] raises [OverflowError] before the
    lengths are compared, no handler is around it, and the inbound thread
    ends there.  The [stop_evt.set()] after the loop is not reached: the
    flag stays unset, the session is not told, and the state is as it was
    before the pass.  Further turns of the dead thread change nothing. *)
Theorem rx_oversized_length_kills_thread (st : session)
    (line rest : list byte) (d : list (string * json)) (L : Z) :
  stop_evt st = false ->
  readline (inbound st) = (line, rest) -> line <> [] ->
  json_loads line = Some (JObj d) ->
  dict_get "t" d = Some (JStr "put") ->
  py_int (default (JInt 0) (dict_get "len" d)) = Ok L ->
  Z.of_nat (length rest) < L -> bytes_max < L ->
  rx_iter st = Raise OverflowError
  /\ (forall fuel, rx_loop (S fuel) st = (Died OverflowError, st))
  /\ (forall sels tx turns,
        Forall (fun t => t = RxTurn) turns ->
        fold_left (sched sels) (RxTurn :: turns) (Threads Running tx, st)
        = (Threads (Died OverflowError) tx, st)).
Proof.
  intros Hstop Hrl Hne Hj Ht Hlen HL Hmax.
  pose proof (rx_iter_overflow st line rest d L Hrl Hne Hj Ht Hlen HL Hmax) as Hit.
  assert (Hloop : forall fuel, rx_loop (S fuel) st = (Died OverflowError, st)).
  { intros fuel. simpl. now rewrite Hstop, Hit. }
  split; [exact Hit|]. split; [exact Hloop|].
  intros sels tx turns Hall. cbn [fold_left sched rx_thread tx_thread].
  rewrite (Hloop 0%nat).
  induction Hall as [|t turns -> _ IH]; [reflexivity|].
  cbn [fold_left sched rx_thread]. exact IH.
Qed.

(** C3, as the code has it.  A header line that [json.loads] refuses is
    logged and skipped: the loop goes on with the next line, and nothing
    but the stream position changes.  The same holds for a header that
    is a dict whose [t] is not ["put"]: that one line is skipped. *)
Theorem rx_skips_bad_and_unknown_headers (st : session)
    (line rest : list byte) :
  stop_evt st = false ->
  readline (inbound st) = (line, rest) -> line <> [] ->
  (json_loads line = None
   \/ exists d, json_loads line = Some (JObj d)
                /\ dict_get "t" d <> Some (JStr "put")) ->
  rx_iter st = Ok (Continue, with_inbound rest st)
  /\ forall fuel, rx_loop (S fuel) st = rx_loop fuel (with_inbound rest st).
Proof.
  intros Hstop Hrl Hne Hcase.
  assert (Hit : rx_iter st = Ok (Continue, with_inbound rest st)).
  { destruct Hcase as [Hj | (d & Hj & Ht)].
    - now apply rx_iter_bad_header with line.
    - apply rx_iter_unknown with line d; try assumption.
      destruct (dict_get "t" d) as [[]|]; try reflexivity.
      cbn [default from_option id py_str_eq].
      destruct (String.eqb "put" s) eqn:E; [|reflexivity].
      apply String.eqb_eq in E. subst. congruence. }
  split; [exact Hit|]. intros fuel. simpl. now rewrite Hstop, Hit.
Qed.

(** C4, as the code has it.  Of the header fields only [t] is required.
    A dict with [t = "put"] is applied with ["clipboard"] for a missing
    [sel], ["text/plain"] for a missing [mime], [0] for a missing [len]
    and [None] for a missing [hash]; with none of the four it is applied
    as an empty plain-text clipboard.  A dict without [t] is skipped. *)
Theorem rx_put_defaults (st : session) (line rest : list byte)
    (d : list (string * json)) :
  readline (inbound st) = (line, rest) -> line <> [] ->
  json_loads line = Some (JObj d) ->
  (dict_get "t" d = Some (JStr "put") ->
   forall L lr,
     py_int (default (JInt 0) (dict_get "len" d)) = Ok L ->
     0 <= L <= Z.of_nat (length rest) ->
     ledger_set (default (JStr "clipboard") (dict_get "sel" d))
                (default JNull (dict_get "hash" d)) (last_remote st) = Ok lr ->
     rx_iter st =
       Ok (Continue,
           Session (last_local st) lr (stop_evt st)
             (drop (Z.to_nat L) rest) (outbound st)
             (clipboard st ++
                [set_clip (default (JStr "clipboard") (dict_get "sel" d))
                          (default (JStr "text/plain") (dict_get "mime" d))
                          (take (Z.to_nat L) rest)])))
  /\ (dict_get "t" d = Some (JStr "put") ->
      dict_get "sel" d = None -> dict_get "mime" d = None ->
      dict_get "len" d = None -> dict_get "hash" d = None ->
      rx_iter st =
        Ok (Continue,
            Session (last_local st) (<["clipboard" := JNull]> (last_remote st))
              (stop_evt st) rest (outbound st)
              (clipboard st ++
                 [set_clip (JStr "clipboard") (JStr "text/plain") []])))
  /\ (dict_get "t" d = None ->
      rx_iter st = Ok (Continue, with_inbound rest st)).
Proof.
  intros Hrl Hne Hj. split; [|split].
  - intros Ht L lr Hlen HL Hset. now apply rx_iter_put with line.
  - intros Ht Hsel Hmime Hlen Hhash.
    rewrite (rx_iter_put st line rest d 0
               (<["clipboard" := JNull]> (last_remote st)) Hrl Hne Hj Ht).
    + rewrite Hsel, Hmime. simpl. rewrite drop_0. reflexivity.
    + now rewrite Hlen.
    + lia.
    + now rewrite Hsel, Hhash.
  - intros Ht. apply rx_iter_unknown with line d; try assumption.
    now rewrite Ht.
Qed.

(** C9, and where the code departs from it.  For a put frame whose payload
    is read in full, the pass stores the hash the header declares (or
    [None] when it declares none) under the selection and runs [wl-copy]
    on the payload, with [--primary] for the selection ["primary"] and
    without it for any other.  No hypothesis relates the declared hash to
    [sha] of the content: it is not recomputed, so a frame with a wrong or
    absent hash is applied all the same.  A selection that is not a string
    but can be a key is stored outside the entries the outbound loop
    reads.  A selection that is a list or a dict cannot be a key: the
    store raises [TypeError], the thread ends, and the frame is neither
    recorded nor applied. *)
Theorem rx_records_declared_hash (st : session) (line rest : list byte)
    (d : list (string * json)) (L : Z) :
  stop_evt st = false ->
  readline (inbound st) = (line, rest) -> line <> [] ->
  json_loads line = Some (JObj d) ->
  dict_get "t" d = Some (JStr "put") ->
  py_int (default (JInt 0) (dict_get "len" d)) = Ok L ->
  0 <= L <= Z.of_nat (length rest) ->
  let sel := default (JStr "clipboard") (dict_get "sel" d) in
  let mime := default (JStr "text/plain") (dict_get "mime" d) in
  let declared := default JNull (dict_get "hash" d) in
  match sel with
  | JArr _ | JObj _ =>
      rx_iter st = Raise TypeError
      /\ forall fuel, rx_loop (S fuel) st = (Died TypeError, st)
  | _ =>
      exists st',
        rx_iter st = Ok (Continue, st')
        /\ last_remote st' =
             match sel with
             | JStr s => <[s := declared]> (last_remote st)
             | _ => last_remote st
             end
        /\ clipboard st' =
             clipboard st ++
               [ClipWrite sel
                  (if py_str_eq "primary" sel
                   then [JStr "wl-copy"; JStr "--primary"; JStr "--type"; mime]
                   else [JStr "wl-copy"; JStr "--type"; mime])
                  (take (Z.to_nat L) rest)]
        /\ inbound st' = drop (Z.to_nat L) rest
        /\ last_local st' = last_local st
        /\ stop_evt st' = stop_evt st
  end.
Proof.
  intros Hstop Hrl Hne Hj Ht Hlen HL sel mime declared.
  assert (Hok : forall lr, ledger_set sel declared (last_remote st) = Ok lr ->
            rx_iter st =
              Ok (Continue,
                  Session (last_local st) lr (stop_evt st)
                    (drop (Z.to_nat L) rest) (outbound st)
                    (clipboard st ++ [set_clip sel mime (take (Z.to_nat L) rest)]))).
  { intros lr Hset. now apply rx_iter_put with line. }
  assert (Hbad : ledger_set sel declared (last_remote st) = Raise TypeError ->
            rx_iter st = Raise TypeError).
  { intros Hset. unfold rx_iter. rewrite Hrl.
    destruct line; [congruence|]. rewrite Hj. simpl. rewrite Ht. simpl.
    rewrite Hlen. simpl.
    destruct (read_full L rest HL) as [-> Hfull]. simpl.
    rewrite Hfull, Z.eqb_refl. simpl.
    unfold with_inbound at 1. simpl.
    fold sel declared. rewrite Hset. reflexivity. }
  destruct sel as [| b | n | f | s | xs | kv] eqn:Esel;
    try (eexists; split; [apply Hok; reflexivity | simpl; auto 6]).
  - rewrite (Hbad eq_refl). split; [reflexivity|].
    intros fuel. simpl. now rewrite Hstop, (Hbad eq_refl).
  - rewrite (Hbad eq_refl). split; [reflexivity|].
    intros fuel. simpl. now rewrite Hstop, (Hbad eq_refl).
Qed.

(** C10.  The selection a put header names is used as it comes, for any
    name [s], whether or not the session polls it: the declared hash is
    stored under [s], a new ledger entry if there was none, and the other
    entries are kept; the payload goes to [set_clip] for [s]. *)
Theorem rx_accepts_any_selection (st : session) (line rest : list byte)
    (d : list (string * json)) (L : Z) (s : string) :
  readline (inbound st) = (line, rest) -> line <> [] ->
  json_loads line = Some (JObj d) ->
  dict_get "t" d = Some (JStr "put") ->
  dict_get "sel" d = Some (JStr s) ->
  py_int (default (JInt 0) (dict_get "len" d)) = Ok L ->
  0 <= L <= Z.of_nat (length rest) ->
  exists st',
    rx_iter st = Ok (Continue, st')
    /\ last_remote st' !! s = Some (default JNull (dict_get "hash" d))
    /\ (forall k, k <> s -> last_remote st' !! k = last_remote st !! k)
    /\ dom (last_remote st') = {[s]} ∪ dom (last_remote st)
    /\ last (clipboard st') =
         Some (set_clip (JStr s) (default (JStr "text/plain") (dict_get "mime" d))
                        (take (Z.to_nat L) rest)).
Proof.
  intros Hrl Hne Hj Ht Hsel Hlen HL. eexists. split.
  - apply rx_iter_put with line; try eassumption.
    rewrite Hsel. reflexivity.
  - simpl. rewrite Hsel. simpl. repeat split.
    + apply lookup_insert_eq.
    + intros k Hk. now apply lookup_insert_ne.
    + apply dom_insert_L.
    + apply last_snoc.
Qed.

End InboundProperties.

(** C2 at a header that declares [2 ^ 63] bytes followed by five bytes and
    the end of the stream: the inbound thread dies of [OverflowError], the
    flag is not set, and the session is not over however many turns the
    dead thread is given. *)
Lemma rx_oversized_length_witness :
  let st := session_start Sample.frame_huge false in
  readline (inbound st) = (Ref.line Sample.hdr_huge, Sample.hello)
  /\ @rx_iter Ref.runtime st = Raise OverflowError
  /\ @rx_loop Ref.runtime 1 st = (Died OverflowError, st)
  /\ stop_evt (snd (@rx_loop Ref.runtime 1 st)) = false
  /\ clipboard (snd (@rx_loop Ref.runtime 1 st)) = []
  /\ session_over
       (@run_session Ref.runtime
          (Connection Sample.frame_huge [RxTurn; RxTurn; RxTurn]) false) = false.
Proof.
  intros st.
  destruct (@rx_oversized_length_kills_thread Ref.runtime st
              (Ref.line Sample.hdr_huge) Sample.hello
              (Sample.put_dict "clipboard" (2 ^ 63) (JStr "00ff")) (2 ^ 63))
    as (Hit & Hloop & Hturns).
  - reflexivity.
  - vm_compute. reflexivity.
  - discriminate.
  - vm_compute. reflexivity.
  - reflexivity.
  - reflexivity.
  - vm_compute. reflexivity.
  - vm_compute. reflexivity.
  - split; [vm_compute; reflexivity|]. split; [exact Hit|].
    split; [exact (Hloop 0%nat)|]. rewrite (Hloop 0%nat).
    split; [reflexivity|]. split; [reflexivity|].
    unfold session_over, run_session. cbn [conn_inbound conn_schedule].
    fold st.
    rewrite (Hturns (selections_of false) Running [RxTurn; RxTurn]);
      [reflexivity | repeat constructor].
Defined.

(** At the input of the specification, a header that declares 100 bytes
    followed by 80 bytes and the end of the stream, the length is one the
    reader accepts: the pass reports the mismatch and leaves the loop, the
    thread returns with [stop_evt] set, and nothing has been applied. *)
Example rx_truncated_payload_100 :
  let st := session_start Sample.frame_cut false in
  @rx_iter Ref.runtime st = Ok (Break, with_inbound [] st)
  /\ fst (@rx_loop Ref.runtime 1 st) = Returned
  /\ stop_evt (snd (@rx_loop Ref.runtime 1 st)) = true
  /\ clipboard (snd (@rx_loop Ref.runtime 1 st)) = []
  /\ last_remote (snd (@rx_loop Ref.runtime 1 st)) = fresh_ledger ["clipboard"%string].
Proof.
  intros st.
  assert (Hit : @rx_iter Ref.runtime st = Ok (Break, with_inbound [] st)).
  { apply (@rx_iter_short Ref.runtime st (Ref.line Sample.hdr_cut)
             (repeat "x"%byte 80)
             (Sample.put_dict "clipboard" 100 (JStr "00ff")) 100).
    - vm_compute. reflexivity.
    - discriminate.
    - vm_compute. reflexivity.
    - reflexivity.
    - reflexivity.
    - vm_compute. reflexivity.
    - vm_compute. discriminate. }
  split; [exact Hit|].
  assert (Hloop : @rx_loop Ref.runtime 1 st
                  = (Returned, with_stop true (with_inbound [] st))).
  { cbn [rx_loop]. rewrite Hit. reflexivity. }
  rewrite Hloop. auto.
Qed.

(** C3 fails on the code: a line that is no JSON does not end the session.
    The loop is still running after it, [stop_evt] is not set, and the
    frame that follows is applied. *)
Lemma rx_bad_header_not_fatal :
  let st := session_start Sample.garbage_then_frame false in
  readline (inbound st) = (Ref.line "garbage", Sample.frame_wrong)
  /\ @json_loads Ref.runtime (Ref.line "garbage") = None
  /\ @rx_loop Ref.runtime 1 st = (Running, with_inbound Sample.frame_wrong st)
  /\ stop_evt (snd (@rx_loop Ref.runtime 1 st)) = false
  /\ clipboard (snd (@rx_loop Ref.runtime 2 st))
     = [set_clip (JStr "clipboard") (JStr "text/plain") Sample.hello].
Proof. vm_compute. repeat split. Qed.

(** C3 as amended, at a header of unknown type followed by a frame. *)
Lemma rx_skips_unknown_witness :
  let st := session_start Sample.ping_then_frame false in
  @rx_iter Ref.runtime st = Ok (Continue, with_inbound Sample.frame_wrong st)
  /\ forall fuel,
       @rx_loop Ref.runtime (S fuel) st
       = @rx_loop Ref.runtime fuel (with_inbound Sample.frame_wrong st).
Proof.
  intros st.
  apply (@rx_skips_bad_and_unknown_headers Ref.runtime st
           (Ref.line Sample.hdr_ping) Sample.frame_wrong).
  - reflexivity.
  - vm_compute. reflexivity.
  - discriminate.
  - right. exists [("t", JStr "ping")]%string. split.
    + vm_compute. reflexivity.
    + discriminate.
Defined.

(** C4 fails on the code: the header [{"t": "put", "len": 5}] carries no
    selection, no content type and no hash, and is decoded and applied. *)
Lemma rx_missing_fields_accepted :
  let st := session_start Sample.frame_bare false in
  readline (inbound st) = (Ref.line Sample.hdr_bare, Sample.hello)
  /\ @json_loads Ref.runtime (Ref.line Sample.hdr_bare)
     = Some (JObj [("t", JStr "put"); ("len", JInt 5)]%string)
  /\ fst (@rx_loop Ref.runtime 1 st) = Running
  /\ clipboard (snd (@rx_loop Ref.runtime 1 st))
     = [set_clip (JStr "clipboard") (JStr "text/plain") Sample.hello]
  /\ last_remote (snd (@rx_loop Ref.runtime 1 st)) !! "clipboard"%string = Some JNull.
Proof. vm_compute. repeat split. Qed.

(** C4 as amended, at the header [{"t": "put"}]. *)
Lemma rx_put_defaults_witness :
  let st := session_start (Ref.line Sample.hdr_only_t) false in
  @rx_iter Ref.runtime st =
    Ok (Continue,
        Session (last_local st) (<["clipboard"%string := JNull]> (last_remote st))
          false [] []
          [set_clip (JStr "clipboard") (JStr "text/plain") []]).
Proof.
  intros st.
  destruct (@rx_put_defaults Ref.runtime st (Ref.line Sample.hdr_only_t) []
              [("t", JStr "put")]%string) as (_ & Hnone & _).
  - vm_compute. reflexivity.
  - discriminate.
  - vm_compute. reflexivity.
  - apply Hnone; reflexivity.
Defined.

(** C9 at two frames.  The first declares a hash that is not the digest
    of its content: it is recorded as declared, and [wl-copy] is run on
    the five bytes.  The second names a list as its selection: the thread
    dies of [TypeError], nothing is recorded and nothing is applied. *)
Lemma rx_records_declared_hash_witness :
  let st := session_start Sample.frame_wrong false in
  let bad := session_start Sample.frame_listed false in
  (py_str_eq (sha Sample.hello "text/plain") (JStr "00ff") = false
   /\ exists st',
        @rx_iter Ref.runtime st = Ok (Continue, st')
        /\ last_remote st' = <["clipboard"%string := JStr "00ff"]> (last_remote st)
        /\ clipboard st' =
             [ClipWrite (JStr "clipboard")
                [JStr "wl-copy"; JStr "--type"; JStr "text/plain"]
                [x68; x65; x6c; x6c; x6f]]
        /\ inbound st' = []
        /\ last_local st' = last_local st
        /\ stop_evt st' = false)
  /\ (@json_loads Ref.runtime (Ref.line Sample.hdr_listed)
      = Some (JObj Sample.dict_listed)
      /\ @rx_iter Ref.runtime bad = Raise TypeError
      /\ forall fuel, @rx_loop Ref.runtime (S fuel) bad = (Died TypeError, bad)).
Proof.
  intros st bad. split.
  - split; [vm_compute; reflexivity|].
    apply (@rx_records_declared_hash Ref.runtime st
             (Ref.line Sample.hdr_wrong) Sample.hello
             (Sample.put_dict "clipboard" 5 (JStr "00ff")) 5).
    + reflexivity.
    + vm_compute. reflexivity.
    + discriminate.
    + vm_compute. reflexivity.
    + reflexivity.
    + reflexivity.
    + vm_compute. split; discriminate.
  - split; [vm_compute; reflexivity|].
    apply (@rx_records_declared_hash Ref.runtime bad
             (Ref.line Sample.hdr_listed) Sample.hello
             Sample.dict_listed 5).
    + reflexivity.
    + vm_compute. reflexivity.
    + discriminate.
    + vm_compute. reflexivity.
    + reflexivity.
    + reflexivity.
    + vm_compute. split; discriminate.
Defined.

(** C10 at a frame for the primary selection in a session that does not
    sync it. *)
Lemma rx_accepts_any_selection_witness :
  let st := session_start Sample.frame_primary false in
  selections_of false = ["clipboard"%string]
  /\ exists st',
       @rx_iter Ref.runtime st = Ok (Continue, st')
       /\ last_remote st' !! "primary"%string = Some (JStr "00ff")
       /\ (forall k, k <> "primary"%string -> last_remote st' !! k = last_remote st !! k)
       /\ dom (last_remote st') = {["primary"%string]} ∪ dom (last_remote st)
       /\ last (clipboard st') =
            Some (ClipWrite (JStr "primary")
                    [JStr "wl-copy"; JStr "--primary"; JStr "--type"; JStr "text/plain"]
                    Sample.hello).
Proof.
  intros st. split; [reflexivity|].
  apply (@rx_accepts_any_selection Ref.runtime st
           (Ref.line Sample.hdr_primary) Sample.hello
           (Sample.put_dict "primary" 5 (JStr "00ff")) 5 "primary"%string).
  - vm_compute. reflexivity.
  - discriminate.
  - vm_compute. reflexivity.
  - reflexivity.
  - reflexivity.
  - reflexivity.
  - vm_compute. split; discriminate.
Defined.

(** ** The outbound loop *)

Arguments sha : simpl never.

Lemma py_str_eq_true (s : string) (v : json) :
  py_str_eq s v = true <-> v = JStr s.
Proof.
  destruct v; simpl; try (split; [discriminate|congruence]).
  rewrite String.eqb_eq. split; congruence.
Qed.

Lemma py_str_eq_refl (s : string) : py_str_eq s (JStr s) = true.
Proof. now apply py_str_eq_true. Qed.

Section Outbound.
Variables (e : env) (sel : string) (st : session).
Variables (mime : string) (data : list byte).

(** The clipboard holds a snapshot for [sel]: types are offered, one is
    chosen and its content can be read. *)
Hypothesis Hoffer : list_mimes e sel <> [].
Hypothesis Hchoose : choose_mime (list_mimes e sel) = Some mime.
Hypothesis Hmime : mime <> EmptyString.
Hypothesis Hread : read_clip e sel mime = Some data.

Let h : string := sha data mime.
Let header : json := put_header sel mime data h.

(** The pass starts with the test against [last_local]. *)
Lemma tx_poll_snapshot :
  tx_poll e sel st =
    (ll ← ledger_get (last_local st) sel;
     if py_str_eq h ll then Ok (Skip SameLocalHash, st)
     else
       lr ← ledger_get (last_remote st) sel;
       if py_str_eq h lr then Ok (Skip FromRemote, st)
       else
         if sendall_ok e header data
         then Ok (Sent,
                  with_last_local (<[sel := JStr h]> (last_local st))
                    (with_outbound (outbound st ++ [(header, data)]) st))
         else Ok (SendFailed, with_stop true st)).
Proof.
  unfold tx_poll. destruct (list_mimes e sel) as [|m ms] eqn:Hm; [congruence|].
  rewrite Hchoose. destruct mime as [|c s]; [congruence|]. rewrite Hread.
  fold h. destruct (ledger_get (last_local st) sel) as [ll|]; simpl; [|reflexivity].
  destruct (py_str_eq h ll); [reflexivity|].
  destruct (ledger_get (last_remote st) sel) as [lr|]; simpl; [|reflexivity].
  destruct (py_str_eq h lr); [reflexivity|].
  fold header. unfold peer_send.
  destruct (sendall_ok e header data); reflexivity.
Qed.

Lemma tx_poll_same_local (ll : json) :
  last_local st !! sel = Some ll -> py_str_eq h ll = true ->
  tx_poll e sel st = Ok (Skip SameLocalHash, st).
Proof.
  intros Hll Heq. rewrite tx_poll_snapshot. unfold ledger_get.
  rewrite Hll. simpl. now rewrite Heq.
Qed.

Lemma tx_poll_from_remote (ll lr : json) :
  last_local st !! sel = Some ll -> last_remote st !! sel = Some lr ->
  py_str_eq h ll = false -> py_str_eq h lr = true ->
  tx_poll e sel st = Ok (Skip FromRemote, st).
Proof.
  intros Hll Hlr Hne Heq. rewrite tx_poll_snapshot. unfold ledger_get.
  rewrite Hll. simpl. rewrite Hne, Hlr. simpl. now rewrite Heq.
Qed.

Lemma tx_poll_sent (ll lr : json) :
  last_local st !! sel = Some ll -> last_remote st !! sel = Some lr ->
  py_str_eq h ll = false -> py_str_eq h lr = false ->
  sendall_ok e header data = true ->
  tx_poll e sel st =
    Ok (Sent,
        with_last_local (<[sel := JStr h]> (last_local st))
          (with_outbound (outbound st ++ [(header, data)]) st)).
Proof.
  intros Hll Hlr Hne1 Hne2 Hok. rewrite tx_poll_snapshot. unfold ledger_get.
  rewrite Hll. simpl. rewrite Hne1, Hlr. simpl. now rewrite Hne2, Hok.
Qed.

Lemma tx_poll_send_failed (ll lr : json) :
  last_local st !! sel = Some ll -> last_remote st !! sel = Some lr ->
  py_str_eq h ll = false -> py_str_eq h lr = false ->
  sendall_ok e header data = false ->
  tx_poll e sel st = Ok (SendFailed, with_stop true st).
Proof.
  intros Hll Hlr Hne1 Hne2 Hok. rewrite tx_poll_snapshot. unfold ledger_get.
  rewrite Hll. simpl. rewrite Hne1, Hlr. simpl. now rewrite Hne2, Hok.
Qed.

End Outbound.

(** Whatever the clipboard holds, a pass that ends in [Sent] has read a
    snapshot, has written its frame, and has stored its hash; any other
    pass leaves [last_local] and the wire alone. *)
Lemma tx_poll_inv (e : env) (sel : string) (st st' : session) (o : tx_outcome) :
  tx_poll e sel st = Ok (o, st') ->
  match o with
  | Sent =>
      exists mime data,
        choose_mime (list_mimes e sel) = Some mime
        /\ read_clip e sel mime = Some data
        /\ sendall_ok e (put_header sel mime data (sha data mime)) data = true
        /\ st' = with_last_local (<[sel := JStr (sha data mime)]> (last_local st))
                   (with_outbound
                      (outbound st ++ [(put_header sel mime data (sha data mime), data)]) st)
  | SendFailed => st' = with_stop true st
  | Skip _ => st' = st
  end.
Proof.
  unfold tx_poll. destruct (list_mimes e sel) as [|m ms]; [intros [= <- <-]; reflexivity|].
  destruct (choose_mime (m :: ms)) as [[|c s]|] eqn:Hc;
    try (intros [= <- <-]; reflexivity).
  destruct (read_clip e sel (String c s)) as [data|] eqn:Hr;
    [|intros [= <- <-]; reflexivity].
  destruct (ledger_get (last_local st) sel) as [ll|]; simpl; [|discriminate].
  destruct (py_str_eq _ ll); [intros [= <- <-]; reflexivity|].
  destruct (ledger_get (last_remote st) sel) as [lr|]; simpl; [|discriminate].
  destruct (py_str_eq _ lr); [intros [= <- <-]; reflexivity|].
  unfold peer_send. destruct (sendall_ok e _ data) eqn:Hs; simpl.
  - intros [= <- <-]. exists (String c s), data. auto.
  - intros [= <- <-]. reflexivity.
Qed.

Lemma py_str_eq_false (s : string) (v : json) :
  v <> JStr s -> py_str_eq s v = false.
Proof.
  intros Hne. destruct (py_str_eq s v) eqn:E; [|reflexivity].
  apply py_str_eq_true in E. contradiction.
Qed.

Lemma is_str_or_not (s : string) (v : json) : v = JStr s \/ v <> JStr s.
Proof.
  destruct (py_str_eq s v) eqn:E.
  - left. now apply py_str_eq_true.
  - right. intros ->. rewrite py_str_eq_refl in E. discriminate.
Qed.

Section OutboundProperties.
Variables (e : env) (sel : string) (st : session).
Variables (mime : string) (data : list byte) (ll lr : json).

Hypothesis Hoffer : list_mimes e sel <> [].
Hypothesis Hchoose : choose_mime (list_mimes e sel) = Some mime.
Hypothesis Hmime : mime <> EmptyString.
Hypothesis Hread : read_clip e sel mime = Some data.
Hypothesis Hll : last_local st !! sel = Some ll.
Hypothesis Hlr : last_remote st !! sel = Some lr.

(** C1.  The clipboard holds the snapshot [(mime, data)] for [sel], with
    hash [h], and the ledger holds [ll] as last sent and [lr] as last
    received hash.  The pass of the outbound loop sends nothing when
    [h] is [ll], that test coming first, nor when [h] is [lr]; these are
    the only cases in which it skips the snapshot.  Otherwise it hands the
    frame to [Peer.send], and the frame is on the wire when the write
    succeeds.  When it has been sent, the next pass on the same content is
    skipped whatever the inbound loop did to the rest of the state in
    between: two passes put exactly one frame on the wire. *)
Theorem tx_suppresses_known_hashes :
  let h := sha data mime in
  let fr := (put_header sel mime data h, data) in
  (ll = JStr h -> tx_poll e sel st = Ok (Skip SameLocalHash, st))
  /\ (ll <> JStr h -> lr = JStr h -> tx_poll e sel st = Ok (Skip FromRemote, st))
  /\ ((exists why st', tx_poll e sel st = Ok (Skip why, st'))
      <-> ll = JStr h \/ lr = JStr h)
  /\ (ll <> JStr h -> lr <> JStr h ->
      tx_poll e sel st =
        if sendall_ok e (fst fr) data
        then Ok (Sent,
                 with_last_local (<[sel := JStr h]> (last_local st))
                   (with_outbound (outbound st ++ [fr]) st))
        else Ok (SendFailed, with_stop true st))
  /\ (ll <> JStr h -> lr <> JStr h -> sendall_ok e (fst fr) data = true ->
      exists st1,
        tx_poll e sel st = Ok (Sent, st1)
        /\ outbound st1 = outbound st ++ [fr]
        /\ forall st2,
             last_local st2 = last_local st1 ->
             tx_poll e sel st2 = Ok (Skip SameLocalHash, st2)).
Proof.
  intros h fr.
  assert (Hsame : ll = JStr h -> tx_poll e sel st = Ok (Skip SameLocalHash, st)).
  { intros ->. apply tx_poll_same_local with mime data (JStr h); try assumption.
    apply py_str_eq_refl. }
  assert (Hecho : ll <> JStr h -> lr = JStr h ->
                  tx_poll e sel st = Ok (Skip FromRemote, st)).
  { intros Hne ->.
    apply tx_poll_from_remote with mime data ll (JStr h); try assumption.
    - now apply py_str_eq_false.
    - apply py_str_eq_refl. }
  assert (Hsend : ll <> JStr h -> lr <> JStr h ->
      tx_poll e sel st =
        if sendall_ok e (fst fr) data
        then Ok (Sent,
                 with_last_local (<[sel := JStr h]> (last_local st))
                   (with_outbound (outbound st ++ [fr]) st))
        else Ok (SendFailed, with_stop true st)).
  { intros Hne1 Hne2. simpl fst.
    destruct (sendall_ok e (put_header sel mime data h) data) eqn:Hok.
    - apply tx_poll_sent with ll lr; try assumption; now apply py_str_eq_false.
    - apply tx_poll_send_failed with mime data ll lr; try assumption;
        now apply py_str_eq_false. }
  split; [exact Hsame|]. split; [exact Hecho|]. split; [|split; [exact Hsend|]].
  - split.
    + intros (why & st' & Hp).
      destruct (is_str_or_not h ll) as [|Hne1]; [now left|].
      destruct (is_str_or_not h lr) as [|Hne2]; [now right|].
      rewrite (Hsend Hne1 Hne2) in Hp.
      destruct (sendall_ok e (fst fr) data); discriminate.
    + intros Hcase. destruct (is_str_or_not h ll) as [Heq|Hne1].
      * exists SameLocalHash, st. now apply Hsame.
      * destruct Hcase as [|Heq]; [contradiction|].
        exists FromRemote, st. now apply Hecho.
  - intros Hne1 Hne2 Hok. rewrite (Hsend Hne1 Hne2), Hok.
    eexists. split; [reflexivity|]. split; [reflexivity|].
    intros st2 Hst2.
    apply tx_poll_same_local with mime data (JStr h); try assumption.
    + rewrite Hst2. simpl. apply lookup_insert_eq.
    + apply py_str_eq_refl.
Qed.

End OutboundProperties.

(** Once [stop_evt] is set both loops return at their next test of it. *)
Lemma tx_loop_stopped (envs : list env) (sels : list string) (st : session) :
  stop_evt st = true -> tx_loop envs sels st = (Returned, st).
Proof. intros Hs. destruct envs; simpl; now rewrite Hs. Qed.

Lemma rx_loop_stopped `{Runtime} (fuel : nat) (st : session) :
  stop_evt st = true -> rx_loop (S fuel) st = (Returned, st).
Proof. intros Hs. simpl. rewrite Hs. destruct st; simpl in *. now subst. Qed.

(** C5.  A pass of the outbound loop changes [last_local] only by storing
    the hash of a snapshot whose frame [Peer.send] has just written.  When
    the snapshot is to be sent and the write fails, [last_local] and the
    wire are as before, [stop_evt] is set, the [for] is left, and both the
    outbound and the inbound loop return at their next test of
    [stop_evt]: the session ends. *)
Theorem tx_ledger_follows_send (e : env) (sel : string) (st : session) :
  (forall o st',
     tx_poll e sel st = Ok (o, st') ->
     last_local st' <> last_local st ->
     o = Sent
     /\ exists mime data,
          sendall_ok e (put_header sel mime data (sha data mime)) data = true
          /\ outbound st' = outbound st ++ [(put_header sel mime data (sha data mime), data)]
          /\ last_local st' = <[sel := JStr (sha data mime)]> (last_local st))
  /\ (forall mime data ll lr,
        list_mimes e sel <> [] ->
        choose_mime (list_mimes e sel) = Some mime -> mime <> EmptyString ->
        read_clip e sel mime = Some data ->
        last_local st !! sel = Some ll -> last_remote st !! sel = Some lr ->
        ll <> JStr (sha data mime) -> lr <> JStr (sha data mime) ->
        sendall_ok e (put_header sel mime data (sha data mime)) data = false ->
        exists st',
          tx_poll e sel st = Ok (SendFailed, st')
          /\ last_local st' = last_local st
          /\ outbound st' = outbound st
          /\ stop_evt st' = true
          /\ (forall rest, tx_for e (sel :: rest) st = (None, st'))
          /\ (forall envs sels, tx_loop envs sels st' = (Returned, st'))
          /\ (forall (R : Runtime) fuel, rx_loop (S fuel) st' = (Returned, st'))).
Proof.
  split.
  - intros o st' Hp Hchg. pose proof (tx_poll_inv e sel st st' o Hp) as Hinv.
    destruct o as [why| |].
    + subst st'. contradiction.
    + split; [reflexivity|]. destruct Hinv as (mime & data & _ & _ & Hok & ->).
      exists mime, data. auto.
    + subst st'. contradiction.
  - intros mime data ll lr Hoffer Hchoose Hmime Hread Hll Hlr Hne1 Hne2 Hfail.
    assert (Hp : tx_poll e sel st = Ok (SendFailed, with_stop true st)).
    { apply tx_poll_send_failed with mime data ll lr; try assumption;
        now apply py_str_eq_false. }
    exists (with_stop true st). split; [exact Hp|].
    do 3 (split; [reflexivity|]). split; [|split].
    + intros rest. simpl. now rewrite Hp.
    + intros envs sels. now apply tx_loop_stopped.
    + intros R fuel. now apply rx_loop_stopped.
Qed.

(** C5 at a clipboard that holds "hello" while the socket is down. *)
Lemma tx_ledger_follows_send_witness :
  let e := Sample.desk Sample.hello false in
  let st := session_start [] false in
  exists st',
    tx_poll e "clipboard" st = Ok (SendFailed, st')
    /\ last_local st' = last_local st
    /\ outbound st' = []
    /\ stop_evt st' = true
    /\ (forall rest, tx_for e ("clipboard"%string :: rest) st = (None, st'))
    /\ (forall envs sels, tx_loop envs sels st' = (Returned, st'))
    /\ (forall (R : Runtime) fuel, rx_loop (S fuel) st' = (Returned, st')).
Proof.
  intros e st.
  apply (proj2 (tx_ledger_follows_send e "clipboard" st)
           "image/png"%string Sample.hello JNull JNull).
  - discriminate.
  - reflexivity.
  - discriminate.
  - reflexivity.
  - vm_compute. reflexivity.
  - vm_compute. reflexivity.
  - discriminate.
  - discriminate.
  - reflexivity.
Defined.

(** C1 at a clipboard that holds "hello", polled twice from a fresh
    session: one frame. *)
Lemma tx_suppresses_known_hashes_witness :
  let e := Sample.desk Sample.hello true in
  let st := session_start [] false in
  let fr := (put_header "clipboard" "image/png" Sample.hello
               (sha Sample.hello "image/png"), Sample.hello) in
  exists st1,
    tx_poll e "clipboard" st = Ok (Sent, st1)
    /\ outbound st1 = [fr]
    /\ forall st2,
         last_local st2 = last_local st1 ->
         tx_poll e "clipboard" st2 = Ok (Skip SameLocalHash, st2).
Proof.
  intros e st fr.
  destruct (tx_suppresses_known_hashes e "clipboard" st
              "image/png"%string Sample.hello JNull JNull) as (_ & _ & _ & _ & H).
  - discriminate.
  - reflexivity.
  - discriminate.
  - reflexivity.
  - vm_compute. reflexivity.
  - vm_compute. reflexivity.
  - apply H; [discriminate | discriminate | reflexivity].
Defined.

(** ** The content hash in the outbound loop *)

(** C8.  [sha] is the hexadecimal SHA-256 digest, 64 characters, of the
    content type, one zero byte and the content, and this is the hash the
    outbound loop works with: a pass that sends has read a snapshot
    [(mime, data)], the header it writes declares that digest and
    [last_local] holds it. *)
Theorem sha_is_sha256_of_type_nul_content :
  (forall data mime,
     sha data mime = Sha256.hexdigest (list_byte_of_string mime ++ [x00] ++ data)
     /\ String.length (sha data mime) = 64%nat)
  /\ (forall e sel st st',
        tx_poll e sel st = Ok (Sent, st') ->
        exists mime data,
          choose_mime (list_mimes e sel) = Some mime
          /\ read_clip e sel mime = Some data
          /\ let h := Sha256.hexdigest (list_byte_of_string mime ++ [x00] ++ data) in
             last (outbound st') = Some (put_header sel mime data h, data)
             /\ last_local st' !! sel = Some (JStr h)).
Proof.
  split; [intros data mime; split; [reflexivity | apply sha_length]|].
  intros e sel st st' Hp. apply tx_poll_inv in Hp.
  destruct Hp as (mime & data & Hc & Hr & _ & ->).
  exists mime, data. split; [exact Hc|]. split; [exact Hr|].
  split.
  - simpl. apply last_snoc.
  - simpl. apply lookup_insert_eq.
Qed.

(** C8 at the clipboard that holds "hello" as text/plain: the digest is
    the one [sha256sum] prints for [text/plain\0hello]. *)
Lemma sha_is_sha256_witness :
  let e := Env (fun _ => ["text/plain"%string]) (fun _ _ => Some Sample.hello)
               (fun _ _ => true) in
  let h := "97ef98f924d843749ab0e7f56c8362af9c86e7d214492543f8dbfb6cdf679037"%string in
  exists st',
    tx_poll e "clipboard" (session_start [] false) = Ok (Sent, st')
    /\ last (outbound st') = Some (put_header "clipboard" "text/plain" Sample.hello h,
                                   Sample.hello)
    /\ last_local st' !! "clipboard"%string = Some (JStr h).
Proof.
  intros e h.
  assert (Hp : exists st', tx_poll e "clipboard" (session_start [] false) = Ok (Sent, st')).
  { eexists. vm_compute. reflexivity. }
  destruct Hp as [st' Hp]. exists st'. split; [exact Hp|].
  destruct (proj2 sha_is_sha256_of_type_nul_content e _ _ _ Hp)
    as (mime & data & Hc & Hr & Hlast & Hloc).
  vm_compute in Hc. vm_compute in Hr.
  injection Hc as <-. injection Hr as <-.
  change (Sha256.hexdigest _)
    with (sha (list_byte_of_string "hello") "text/plain") in Hlast, Hloc.
  rewrite sha_hello in Hlast, Hloc.
  split; [exact Hlast | exact Hloc].
Defined.

(** ** Sessions *)

Lemma fresh_ledger_lookup (sels : list string) (s : string) :
  fresh_ledger sels !! s = if bool_decide (s ∈ sels) then Some JNull else None.
Proof.
  unfold fresh_ledger. induction sels as [|a l IH]; simpl.
  - rewrite lookup_empty. reflexivity.
  - destruct (decide (a = s)) as [->|Hne].
    + rewrite lookup_insert_eq. rewrite bool_decide_eq_true_2; [reflexivity|].
      apply list_elem_of_here.
    + rewrite lookup_insert_ne by exact Hne. rewrite IH.
      apply (f_equal (fun b : bool => if b then Some JNull else None)).
      apply bool_decide_ext. rewrite elem_of_cons.
      split; [intros Hin; now right | intros [Heq|Hin]; [congruence | exact Hin]].
Qed.

Lemma run_session_started `{Runtime} (c : connection) (primary_ok : bool) :
  started (run_session c primary_ok) = session_start (conn_inbound c) primary_ok.
Proof.
  unfold run_session. destruct (fold_left _ _ _) as [th st]. reflexivity.
Qed.

Lemma serve_lookup `{Runtime} (conns : list connection) (primary_ok : bool)
    (i : nat) (r : session_run) :
  serve conns primary_ok !! i = Some r ->
  exists c, conns !! i = Some c /\ r = run_session c primary_ok.
Proof.
  revert i. induction conns as [|c rest IH]; intros i; simpl; [discriminate|].
  destruct i as [|i]; simpl.
  - intros [= <-]. eauto.
  - destruct (session_over _); [apply IH | discriminate].
Qed.

Lemma connect_elem `{Runtime} (attempts : list (option connection))
    (primary_ok : bool) (r : session_run) :
  r ∈ connect attempts primary_ok ->
  exists c, Some c ∈ attempts /\ r = run_session c primary_ok.
Proof.
  induction attempts as [|[c|] rest IH]; simpl.
  - intros Hin. inversion Hin.
  - rewrite elem_of_cons. intros [-> | Hin].
    + exists c. split; [apply list_elem_of_here | reflexivity].
    + destruct (session_over _); [|inversion Hin].
      destruct (IH Hin) as (c' & Hc' & ->). exists c'.
      split; [now apply list_elem_of_further | reflexivity].
  - intros Hin. destruct (IH Hin) as (c' & Hc' & ->). exists c'.
    split; [now apply list_elem_of_further | reflexivity].
Qed.

(** C6.  The [i]-th session of the listener, and every session of the
    dialer, is [run_session] on its own connection: nothing of an earlier
    session enters it.  The state it starts from has [None] as last sent
    and as last received hash for every active selection, and no other
    entry. *)
Theorem sessions_start_with_fresh_ledger `{Runtime} (primary_ok : bool) :
  (forall conns i r,
     serve conns primary_ok !! i = Some r ->
     exists c, conns !! i = Some c /\ r = run_session c primary_ok)
  /\ (forall attempts r,
        r ∈ connect attempts primary_ok ->
        exists c, Some c ∈ attempts /\ r = run_session c primary_ok)
  /\ (forall c s,
        let st0 := started (run_session c primary_ok) in
        last_local st0 !! s
          = (if bool_decide (s ∈ selections_of primary_ok) then Some JNull else None)
        /\ last_remote st0 !! s
          = (if bool_decide (s ∈ selections_of primary_ok) then Some JNull else None)).
Proof.
  split; [|split].
  - intros conns i r. apply serve_lookup.
  - intros attempts r. apply connect_elem.
  - intros c s. simpl. rewrite run_session_started. simpl.
    split; apply fresh_ledger_lookup.
Qed.

(** C6 at a listener whose first session ends with a received hash in its
    ledger: the second session starts without it. *)
Lemma sessions_start_fresh_witness :
  exists r1 r2,
    @serve Ref.runtime [Sample.conn_a; Sample.conn_b] false = [r1; r2]
    /\ last_remote (ended r1) !! "clipboard"%string = Some (JStr "00ff")
    /\ r2 = @run_session Ref.runtime Sample.conn_b false
    /\ last_remote (started r2) !! "clipboard"%string = Some JNull
    /\ last_local (started r2) !! "clipboard"%string = Some JNull
    /\ last_remote (started r2) !! "primary"%string = None.
Proof.
  destruct (@sessions_start_with_fresh_ledger Ref.runtime false)
    as (Hserve & _ & Hstart).
  exists (@run_session Ref.runtime Sample.conn_a false),
         (@run_session Ref.runtime Sample.conn_b false).
  split; [vm_compute; reflexivity|]. split; [vm_compute; reflexivity|].
  destruct (Hserve [Sample.conn_a; Sample.conn_b] 1%nat
              (@run_session Ref.runtime Sample.conn_b false))
    as (c & Hc & Hr); [vm_compute; reflexivity|].
  injection Hc as <-. split; [exact Hr|].
  pose proof (Hstart Sample.conn_b "clipboard"%string) as [Hl Hrm].
  pose proof (Hstart Sample.conn_b "primary"%string) as [_ Hp].
  split; [exact Hrm|]. split; [exact Hl | exact Hp].
Defined.

(** ** The outbound thread never meets a missing ledger entry *)

(** What a pass of the inbound loop may change: the stream position, one
    entry of [last_remote], and the clipboard. *)
Lemma rx_iter_frame `{Runtime} (st st' : session) (c : ctl) :
  rx_iter st = Ok (c, st') ->
  last_local st' = last_local st
  /\ stop_evt st' = stop_evt st
  /\ outbound st' = outbound st
  /\ (last_remote st' = last_remote st
      \/ exists s v, last_remote st' = <[s := v]> (last_remote st)).
Proof.
  unfold rx_iter. destruct (readline (inbound st)) as [line rest].
  destruct line as [|b line]; [intros [= <- <-]; simpl; auto|].
  destruct (json_loads (b :: line)) as [hdr|]; simpl;
    [|intros [= <- <-]; simpl; auto].
  destruct (hdr_get hdr "t" JNull) as [t|]; simpl; [|discriminate].
  destruct (negb (py_str_eq "put" t)); [intros [= <- <-]; simpl; auto|].
  destruct (hdr_get hdr "sel" _) as [sel|]; simpl; [|discriminate].
  destruct (hdr_get hdr "mime" _) as [mime|]; simpl; [|discriminate].
  destruct (hdr_get hdr "len" _) as [len|]; simpl; [|discriminate].
  destruct (py_int len) as [L|]; simpl; [|discriminate].
  destruct (read L rest) as [[data rest']|]; simpl; [|discriminate].
  destruct (negb _); [intros [= <- <-]; simpl; auto|].
  destruct (hdr_get hdr "hash" _) as [h|]; simpl; [|discriminate].
  destruct (ledger_set sel h _) as [lr|] eqn:Hset; simpl; [|discriminate].
  intros [= <- <-]. simpl. repeat split.
  unfold ledger_set in Hset. simpl in Hset.
  destruct sel; inversion Hset; subst; eauto.
Qed.

Lemma polled_start (inb : list byte) (primary_ok : bool) :
  polled (selections_of primary_ok) (session_start inb primary_ok).
Proof.
  intros s Hs. simpl. rewrite fresh_ledger_lookup.
  rewrite bool_decide_eq_true_2 by exact Hs. split; eexists; reflexivity.
Qed.

Lemma polled_rx_iter `{Runtime} (sels : list string) (st st' : session) (c : ctl) :
  polled sels st -> rx_iter st = Ok (c, st') -> polled sels st'.
Proof.
  intros Hp Hit s Hs. destruct (Hp s Hs) as [Hl Hr].
  destruct (rx_iter_frame st st' c Hit) as (-> & _ & _ & [-> | (k & v & ->)]).
  - auto.
  - split; [exact Hl|]. rewrite lookup_insert. case_decide; [eexists; reflexivity | exact Hr].
Qed.

Lemma polled_with_stop (sels : list string) (b : bool) (st : session) :
  polled sels st -> polled sels (with_stop b st).
Proof. intros Hp s Hs. exact (Hp s Hs). Qed.

Lemma polled_rx_loop `{Runtime} (sels : list string) (fuel : nat) (st : session) :
  polled sels st -> polled sels (snd (rx_loop fuel st)).
Proof.
  revert st. induction fuel as [|n IH]; intros st Hp; simpl; [exact Hp|].
  destruct (stop_evt st); [exact Hp|].
  destruct (rx_iter st) as [[[|] st']|x] eqn:Hit; simpl.
  - apply IH. eapply polled_rx_iter; eauto.
  - apply polled_with_stop. eapply polled_rx_iter; eauto.
  - exact Hp.
Qed.

(** With both entries there, a pass of the outbound loop raises nothing
    and keeps them there. *)
Lemma polled_tx_poll (sels : list string) (e : env) (sel : string) (st : session) :
  polled sels st -> sel ∈ sels ->
  exists o st', tx_poll e sel st = Ok (o, st') /\ polled sels st'.
Proof.
  intros Hp Hs. destruct (Hp sel Hs) as [[ll Hl] [lr Hr]].
  unfold tx_poll. destruct (list_mimes e sel) as [|m ms]; [eauto|].
  destruct (choose_mime (m :: ms)) as [[|c s]|]; eauto.
  destruct (read_clip e sel (String c s)) as [data|]; eauto.
  unfold ledger_get. rewrite Hl. simpl.
  destruct (py_str_eq _ ll); eauto.
  rewrite Hr. simpl. destruct (py_str_eq _ lr); eauto.
  unfold peer_send. destruct (sendall_ok e _ data); simpl.
  - eexists _, _. split; [reflexivity|].
    intros k Hk. destruct (Hp k Hk) as [Hkl Hkr]. simpl. split; [|exact Hkr].
    rewrite lookup_insert. case_decide; [eexists; reflexivity | exact Hkl].
  - eexists _, _. split; [reflexivity|]. now apply polled_with_stop.
Qed.

Lemma polled_tx_for (sels : list string) (e : env) (todo : list string)
    (st : session) :
  polled sels st -> todo ⊆ sels ->
  exists st', tx_for e todo st = (None, st') /\ polled sels st'.
Proof.
  revert st. induction todo as [|sel rest IH]; intros st Hp Hsub; simpl; [eauto|].
  destruct (polled_tx_poll sels e sel st Hp) as (o & st' & -> & Hp').
  { apply Hsub, list_elem_of_here. }
  assert (Hrest : rest ⊆ sels)
    by (intros k Hk; apply Hsub; now apply list_elem_of_further).
  destruct o; eauto.
Qed.

Lemma polled_tx_loop (sels : list string) (envs : list env) (st : session) :
  polled sels st ->
  (forall x, fst (tx_loop envs sels st) <> Died x)
  /\ polled sels (snd (tx_loop envs sels st)).
Proof.
  revert st. induction envs as [|e rest IH]; intros st Hp; simpl.
  - destruct (stop_evt st); simpl; split; try discriminate; exact Hp.
  - destruct (stop_evt st); simpl; [split; [discriminate | exact Hp]|].
    destruct (polled_tx_for sels e sels st Hp) as (st' & -> & Hp'); [done|].
    now apply IH.
Qed.

Lemma polled_sched `{Runtime} (sels : list string) (t : turn)
    (th : threads) (st : session) :
  polled sels st -> (forall y, tx_thread th <> Died y) ->
  polled sels (snd (sched sels (th, st) t))
  /\ forall y, tx_thread (fst (sched sels (th, st) t)) <> Died y.
Proof.
  intros Hp Hth. unfold sched. destruct t as [|e].
  - destruct (rx_thread th); try (split; [exact Hp | exact Hth]).
    pose proof (polled_rx_loop sels 1 st Hp) as Hp'.
    destruct (rx_loop 1 st) as [r st']. split; [exact Hp' | exact Hth].
  - destruct (tx_thread th) eqn:Et.
    + destruct (polled_tx_loop sels [e] st Hp) as [Hd Hp'].
      destruct (tx_loop [e] sels st) as [r st']. split; [exact Hp' | exact Hd].
    + split; [exact Hp | intros y; cbn [fst]; rewrite Et; discriminate].
    + exfalso. exact (Hth _ eq_refl).
Qed.

(** X19.  In every session the outbound thread is running or has
    returned: the lookups [last_local[sel]] and [last_remote[sel]] never
    raise [KeyError], whatever entries the peer's frames add. *)
Theorem tx_thread_never_dies `{Runtime} (c : connection) (primary_ok : bool)
    (x : exn) :
  tx_thread (threads_end (run_session c primary_ok)) <> Died x.
Proof.
  unfold run_session.
  set (sels := selections_of primary_ok).
  assert (Hinv : forall turns p,
            polled sels (snd p) -> (forall y, tx_thread (fst p) <> Died y) ->
            forall y, tx_thread (fst (fold_left (sched sels) turns p)) <> Died y).
  { induction turns as [|t turns IH]; intros [th st] Hp Hth; cbn [fold_left];
      [exact Hth|].
    destruct (polled_sched sels t th st Hp Hth) as [Hp' Hth'].
    now apply IH. }
  pose proof (Hinv (conn_schedule c)
                (Threads Running Running, session_start (conn_inbound c) primary_ok)
                (polled_start _ _)) as Hd.
  destruct (fold_left _ _ _) as [th st]. apply Hd. discriminate.
Qed.

(** ** The scenario of the specification, on the receiving peer

    Peer B applies the frame for "hello" that declares its digest, then
    polls its own clipboard, which now holds "hello": the poll is skipped
    as coming from the remote side, and nothing is sent back. *)
Example echo_is_suppressed :
  let h1 := sha Sample.hello "text/plain" in
  let inb := Ref.line (Sample.put_text "clipboard" "5" (Ref.q h1)) ++ Sample.hello in
  let desk := Env (fun _ => ["text/plain"%string]) (fun _ _ => Some Sample.hello)
                  (fun _ _ => true) in
  let r := @run_session Ref.runtime (Connection inb [RxTurn; TxTurn desk]) false in
  last_remote (ended r) !! "clipboard"%string = Some (JStr h1)
  /\ clipboard (ended r) = [set_clip (JStr "clipboard") (JStr "text/plain") Sample.hello]
  /\ tx_poll desk "clipboard" (ended r) = Ok (Skip FromRemote, ended r)
  /\ outbound (ended r) = [].
Proof. vm_compute. repeat split. Qed.

(** A header that is JSON but no dict has no [get]: the exception is not
    caught, the inbound thread ends, and [stop_evt] stays unset. *)
Example rx_header_not_a_dict :
  let st := session_start (Ref.line "5") false in
  @json_loads Ref.runtime (Ref.line "5") = Some (JInt 5)
  /\ @rx_loop Ref.runtime 1 st = (Died AttributeError, st).
Proof. vm_compute. repeat split. Qed.

(** * Further properties of the code *)

(** ** Invariants of a session, under any interleaving *)

Section SessionInvariant.
Context `{R : Runtime}.
Variable sels : list string.
Variable P : session -> Prop.

Hypothesis P_rx : forall st c st', P st -> rx_iter st = Ok (c, st') -> P st'.
Hypothesis P_tx : forall e sel st o st',
  sel ∈ sels -> P st -> tx_poll e sel st = Ok (o, st') -> P st'.
Hypothesis P_stop : forall st, P st -> P (with_stop true st).

Lemma inv_rx_loop (fuel : nat) (st : session) :
  P st -> P (snd (rx_loop fuel st)).
Proof.
  revert st. induction fuel as [|n IH]; intros st HP; simpl; [exact HP|].
  destruct (stop_evt st); [now apply P_stop|].
  destruct (rx_iter st) as [[[|] st']|x] eqn:Hit; simpl.
  - apply IH. eapply P_rx; eauto.
  - apply P_stop. eapply P_rx; eauto.
  - exact HP.
Qed.

Lemma inv_tx_for (e : env) (todo : list string) (st : session) :
  todo ⊆ sels -> P st -> P (snd (tx_for e todo st)).
Proof.
  revert st. induction todo as [|sel rest IH]; intros st Hsub HP; simpl; [exact HP|].
  assert (Hsel : sel ∈ sels) by apply Hsub, list_elem_of_here.
  assert (Hrest : rest ⊆ sels)
    by (intros k Hk; apply Hsub; now apply list_elem_of_further).
  destruct (tx_poll e sel st) as [[o st']|x] eqn:Hp; simpl; [|exact HP].
  pose proof (P_tx e sel st o st' Hsel HP Hp) as HP'.
  destruct o; simpl; auto.
Qed.

Lemma inv_tx_loop (envs : list env) (st : session) :
  P st -> P (snd (tx_loop envs sels st)).
Proof.
  revert st. induction envs as [|e rest IH]; intros st HP; simpl.
  - destruct (stop_evt st); exact HP.
  - destruct (stop_evt st); [exact HP|].
    pose proof (inv_tx_for e sels st (reflexivity _) HP) as HP'.
    destruct (tx_for e sels st) as [[x|] st']; simpl in *; auto.
Qed.

Lemma inv_sched (t : turn) (th : threads) (st : session) :
  P st -> P (snd (sched sels (th, st) t)).
Proof.
  intros HP. unfold sched. destruct t as [|e].
  - destruct (rx_thread th); try exact HP.
    pose proof (inv_rx_loop 1 st HP) as HP'.
    destruct (rx_loop 1 st) as [r st']. exact HP'.
  - destruct (tx_thread th); try exact HP.
    pose proof (inv_tx_loop [e] st HP) as HP'.
    destruct (tx_loop [e] sels st) as [r st']. exact HP'.
Qed.

Lemma inv_turns (turns : list turn) (p : threads * session) :
  P (snd p) -> P (snd (fold_left (sched sels) turns p)).
Proof.
  revert p. induction turns as [|t turns IH]; intros [th st] HP;
    cbn [fold_left]; [exact HP|].
  apply IH. now apply inv_sched.
Qed.

End SessionInvariant.

(** A property that the session starts with and that every pass of either
    loop keeps holds when the session is left, however the threads took
    turns. *)
Lemma run_session_inv `{Runtime} (P : session -> Prop) (c : connection)
    (primary_ok : bool) :
  P (session_start (conn_inbound c) primary_ok) ->
  (forall st k st', P st -> rx_iter st = Ok (k, st') -> P st') ->
  (forall e sel st o st',
     sel ∈ selections_of primary_ok -> P st ->
     tx_poll e sel st = Ok (o, st') -> P st') ->
  (forall st, P st -> P (with_stop true st)) ->
  P (ended (run_session c primary_ok)).
Proof.
  intros H0 Hrx Htx Hstop. unfold run_session.
  pose proof (inv_turns (selections_of primary_ok) P Hrx Htx Hstop
                (conn_schedule c)
                (Threads Running Running, session_start (conn_inbound c) primary_ok)
                H0) as HP.
  destruct (fold_left _ _ _) as [th st]. exact HP.
Qed.

(** A pass that sends has a content type that is not empty. *)
Lemma tx_poll_sent_mime (e : env) (sel : string) (st st' : session) :
  tx_poll e sel st = Ok (Sent, st') ->
  exists mime data,
    mime <> EmptyString
    /\ st' = with_last_local (<[sel := JStr (sha data mime)]> (last_local st))
               (with_outbound
                  (outbound st ++ [(put_header sel mime data (sha data mime), data)]) st).
Proof.
  unfold tx_poll. destruct (list_mimes e sel) as [|m ms]; [discriminate|].
  destruct (choose_mime (m :: ms)) as [[|c s]|]; try discriminate.
  destruct (read_clip e sel (String c s)) as [data|]; [|discriminate].
  destruct (ledger_get (last_local st) sel) as [ll|]; simpl; [|discriminate].
  destruct (py_str_eq _ ll); [discriminate|].
  destruct (ledger_get (last_remote st) sel) as [lr|]; simpl; [|discriminate].
  destruct (py_str_eq _ lr); [discriminate|].
  unfold peer_send. destruct (sendall_ok e _ data); simpl; [|discriminate].
  intros [= <-]. exists (String c s), data. split; [discriminate | reflexivity].
Qed.

Lemma last_sent_snoc (s : string) (frames : list frame) (fr : frame) :
  last_sent s (frames ++ [fr])
  = if py_str_eq s (frame_field "sel" fr) then frame_field "hash" fr
    else last_sent s frames.
Proof. unfold last_sent. rewrite fold_left_app. reflexivity. Qed.

(** X1.  Whatever the peer sends and however the two loops take turns,
    every frame a session has written was built from a snapshot of an
    active selection: its header names that selection and a content type
    that is not empty, declares the length of the payload that follows,
    and declares the digest of that very content. *)
Theorem outbound_frames_are_snapshots `{Runtime} (c : connection)
    (primary_ok : bool) (fr : frame) :
  fr ∈ outbound (ended (run_session c primary_ok)) ->
  exists sel mime,
    sel ∈ selections_of primary_ok /\ mime <> EmptyString
    /\ fst fr = put_header sel mime (snd fr) (sha (snd fr) mime)
    /\ frame_field "len" fr = JInt (Z.of_nat (length (snd fr)))
    /\ frame_field "hash" fr = JStr (sha (snd fr) mime).
Proof.
  intros Hin.
  assert (HP : Forall (sent_snapshot (selections_of primary_ok))
                 (outbound (ended (run_session c primary_ok)))).
  { apply (run_session_inv
             (fun st => Forall (sent_snapshot (selections_of primary_ok)) (outbound st))).
    - constructor.
    - intros st k st' HP Hit.
      destruct (rx_iter_frame st st' k Hit) as (_ & _ & -> & _). exact HP.
    - intros e sel st o st' Hsel HP Hp. destruct o as [why| |].
      + apply tx_poll_inv in Hp. now subst.
      + apply tx_poll_sent_mime in Hp. destruct Hp as (mime & data & Hm & ->).
        simpl. apply Forall_app. split; [exact HP|].
        constructor; [|constructor]. exists sel, mime. auto.
      + apply tx_poll_inv in Hp. now subst.
    - intros st HP. exact HP. }
  rewrite Forall_forall in HP. destruct (HP fr Hin) as (sel & mime & Hsel & Hm & Hfr).
  exists sel, mime. repeat split; try assumption.
  - unfold frame_field. rewrite Hfr. reflexivity.
  - unfold frame_field. rewrite Hfr. reflexivity.
Qed.

(** X2.  After any number of whole passes of the two loops [last_local]
    has exactly the active selections as keys, and holds for each the hash
    declared by the last frame sent for it, [None] when none was sent: it
    is never rolled back and never runs ahead of the wire. *)
Theorem last_local_is_last_sent `{Runtime} (c : connection) (primary_ok : bool)
    (s : string) :
  let st := ended (run_session c primary_ok) in
  last_local st !! s
  = if bool_decide (s ∈ selections_of primary_ok)
    then Some (last_sent s (outbound st)) else None.
Proof.
  simpl. revert s.
  apply (run_session_inv
           (fun st => forall s, last_local st !! s
              = if bool_decide (s ∈ selections_of primary_ok)
                then Some (last_sent s (outbound st)) else None)).
  - intros s. simpl. apply fresh_ledger_lookup.
  - intros st k st' HP Hit s.
    destruct (rx_iter_frame st st' k Hit) as (-> & _ & -> & _). apply HP.
  - intros e sel st o st' Hsel HP Hp s. destruct o as [why| |].
    + apply tx_poll_inv in Hp. subst. apply HP.
    + apply tx_poll_sent_mime in Hp. destruct Hp as (mime & data & _ & ->).
      simpl. rewrite last_sent_snoc.
      change (frame_field "sel" (put_header sel mime data (sha data mime), data))
        with (JStr sel).
      change (frame_field "hash" (put_header sel mime data (sha data mime), data))
        with (JStr (sha data mime)).
      cbn [py_str_eq]. destruct (String.eqb_spec s sel) as [->|Hne].
      * rewrite lookup_insert_eq. now rewrite bool_decide_eq_true_2.
      * rewrite lookup_insert_ne by congruence. apply HP.
    + apply tx_poll_inv in Hp. subst. apply HP.
  - intros st HP. exact HP.
Qed.

Lemma rx_loop_side `{Runtime} (fuel : nat) (st : session) :
  outbound (snd (rx_loop fuel st)) = outbound st
  /\ last_local (snd (rx_loop fuel st)) = last_local st.
Proof.
  apply (inv_rx_loop
           (fun st' => outbound st' = outbound st /\ last_local st' = last_local st)).
  - intros st1 k st' [Ho Hl] Hit.
    destruct (rx_iter_frame st1 st' k Hit) as (-> & _ & -> & _). auto.
  - intros st1 HP. exact HP.
  - auto.
Qed.

Lemma tx_loop_side (envs : list env) (sels : list string) (st : session) :
  inbound (snd (tx_loop envs sels st)) = inbound st
  /\ clipboard (snd (tx_loop envs sels st)) = clipboard st
  /\ last_remote (snd (tx_loop envs sels st)) = last_remote st.
Proof.
  apply (inv_tx_loop sels
           (fun st' => inbound st' = inbound st /\ clipboard st' = clipboard st
                       /\ last_remote st' = last_remote st)).
  - intros e sel st1 o st' _ HP Hp. apply tx_poll_inv in Hp.
    destruct o as [why| |].
    + now subst.
    + destruct Hp as (mime & data & _ & _ & _ & ->). exact HP.
    + subst. exact HP.
  - auto.
Qed.

(** X3.  The two loops keep to their own side of the session.  The inbound
    loop never writes to the socket and never touches [last_local]; the
    outbound loop never reads the stream, never calls [set_clip] and never
    touches [last_remote]. *)
Theorem loops_keep_to_their_side `{Runtime} (st : session) :
  (forall fuel,
     outbound (snd (rx_loop fuel st)) = outbound st
     /\ last_local (snd (rx_loop fuel st)) = last_local st)
  /\ (forall envs sels,
        inbound (snd (tx_loop envs sels st)) = inbound st
        /\ clipboard (snd (tx_loop envs sels st)) = clipboard st
        /\ last_remote (snd (tx_loop envs sels st)) = last_remote st).
Proof.
  split.
  - intros fuel. apply rx_loop_side.
  - intros envs sels. apply tx_loop_side.
Qed.

Lemma with_stop_set (st : session) :
  stop_evt st = true -> with_stop true st = st.
Proof. destruct st. simpl. now intros ->. Qed.

(** X4.  Both loops test [stop_evt] at the top of their [while].  Once it
    is set, every pass that either thread begins afterwards does nothing:
    nothing more is sent, nothing more is written to the clipboard, and
    the ledgers stay as they are. *)
Theorem stopped_session_is_frozen `{Runtime} (sels : list string)
    (turns : list turn) (th : threads) (st : session) :
  stop_evt st = true ->
  snd (fold_left (sched sels) turns (th, st)) = st.
Proof.
  intros Hs. revert th. induction turns as [|t turns IH]; intros th;
    cbn [fold_left]; [reflexivity|].
  assert (Hstep : snd (sched sels (th, st) t) = st).
  { unfold sched. destruct t as [|e].
    - destruct (rx_thread th); try reflexivity.
      rewrite rx_loop_stopped by exact Hs. reflexivity.
    - destruct (tx_thread th); try reflexivity.
      rewrite tx_loop_stopped by exact Hs. reflexivity. }
  destruct (sched sels (th, st) t) as [th' st']. simpl in Hstep. subst st'.
  apply IH.
Qed.

Lemma rx_loop_stop_flag `{Runtime} (fuel : nat) (st : session) :
  (fst (rx_loop fuel st) = Returned -> stop_evt (snd (rx_loop fuel st)) = true)
  /\ (forall e, fst (rx_loop fuel st) = Died e ->
                stop_evt (snd (rx_loop fuel st)) = false).
Proof.
  revert st. induction fuel as [|n IH]; intros st; simpl.
  - split; [discriminate | intros e; discriminate].
  - destruct (stop_evt st) eqn:Hs; simpl.
    + split; [reflexivity | intros e; discriminate].
    + destruct (rx_iter st) as [[[|] st']|x]; simpl.
      * apply IH.
      * split; [reflexivity | intros e; discriminate].
      * split; [discriminate | intros e _; exact Hs].
Qed.

(** X5.  The inbound loop comes to an end: within one pass more than the
    peer sent bytes it has returned or died.  It returns only with
    [stop_evt] set.  When an exception ends it, [stop_evt] is not set:
    the session is not told. *)
Theorem rx_loop_outcome `{Runtime} (fuel : nat) (st : session) :
  ((length (inbound st) < fuel)%nat -> fst (rx_loop fuel st) <> Running)
  /\ (fst (rx_loop fuel st) = Returned -> stop_evt (snd (rx_loop fuel st)) = true)
  /\ (forall e, fst (rx_loop fuel st) = Died e ->
                stop_evt (snd (rx_loop fuel st)) = false).
Proof.
  split; [apply rx_loop_terminates | apply rx_loop_stop_flag].
Qed.


(** ** An unchanged clipboard is sent once *)

(** A pass on [sel] reads the two ledgers at [sel] only. *)
Lemma tx_poll_skip_ext (e : env) (sel : string) (st st2 : session)
    (why : skip_reason) :
  tx_poll e sel st = Ok (Skip why, st) ->
  last_local st2 !! sel = last_local st !! sel ->
  last_remote st2 !! sel = last_remote st !! sel ->
  tx_poll e sel st2 = Ok (Skip why, st2).
Proof.
  unfold tx_poll, ledger_get. intros Hp Hl Hr.
  destruct (list_mimes e sel) as [|m ms]; [now inversion Hp|].
  destruct (choose_mime (m :: ms)) as [[|c s]|]; try (now inversion Hp).
  destruct (read_clip e sel (String c s)) as [data|]; [|now inversion Hp].
  rewrite Hl. destruct (last_local st !! sel) as [ll|]; simpl in *; [|discriminate].
  destruct (py_str_eq _ ll); [now inversion Hp|].
  rewrite Hr. destruct (last_remote st !! sel) as [lr|]; simpl in *; [|discriminate].
  destruct (py_str_eq _ lr); [now inversion Hp|].
  unfold peer_send in Hp. destruct (sendall_ok e _ data); discriminate.
Qed.

(** After a pass on [sel] that did not fail, the next one skips. *)
Lemma tx_poll_settles (e : env) (sel : string) (st st' : session) (o : tx_outcome) :
  tx_poll e sel st = Ok (o, st') -> o <> SendFailed ->
  exists why, tx_poll e sel st' = Ok (Skip why, st').
Proof.
  intros Hp Ho. destruct o as [why| |]; [| |congruence].
  - pose proof (tx_poll_inv e sel st st' _ Hp) as ->. eauto.
  - clear Ho. exists SameLocalHash. revert Hp. unfold tx_poll, ledger_get.
    destruct (list_mimes e sel) as [|m ms]; [discriminate|].
    destruct (choose_mime (m :: ms)) as [[|c s]|]; try discriminate.
    destruct (read_clip e sel (String c s)) as [data|]; [|discriminate].
    destruct (last_local st !! sel) as [ll|]; simpl; [|discriminate].
    destruct (py_str_eq _ ll); [discriminate|].
    destruct (last_remote st !! sel) as [lr|]; simpl; [|discriminate].
    destruct (py_str_eq _ lr); [discriminate|].
    unfold peer_send. destruct (sendall_ok e _ data); simpl; [|discriminate].
    intros [= <-]. simpl. rewrite lookup_insert_eq. simpl.
    now rewrite String.eqb_refl.
Qed.

(** A selection that is skipped stays skipped while others are polled. *)
Lemma tx_poll_keeps_settled (e : env) (sel sel2 : string) (st st2 : session)
    (o : tx_outcome) :
  (exists why, tx_poll e sel st = Ok (Skip why, st)) ->
  tx_poll e sel2 st = Ok (o, st2) -> o <> SendFailed ->
  exists why, tx_poll e sel st2 = Ok (Skip why, st2).
Proof.
  intros [why Hs] Hp Ho. destruct o as [w| |]; [| |congruence].
  - pose proof (tx_poll_inv e sel2 st st2 _ Hp) as ->. eauto.
  - destruct (String.eqb_spec sel sel2) as [->|Hne]; [congruence|].
    apply tx_poll_inv in Hp. destruct Hp as (mime & data & _ & _ & _ & ->).
    exists why. apply tx_poll_skip_ext with st; [exact Hs| |reflexivity].
    simpl. now apply lookup_insert_ne.
Qed.

Lemma tx_for_settles (e : env) (todo : list string) (st st' : session) :
  tx_for e todo st = (None, st') -> stop_evt st = false -> stop_evt st' = false ->
  (forall sel, (exists why, tx_poll e sel st = Ok (Skip why, st)) ->
               exists why, tx_poll e sel st' = Ok (Skip why, st'))
  /\ Forall (fun sel => exists why, tx_poll e sel st' = Ok (Skip why, st')) todo.
Proof.
  revert st. induction todo as [|sel rest IH]; intros st Hf Hs Hs'; simpl in Hf.
  - inversion Hf; subst. split; [auto | constructor].
  - destruct (tx_poll e sel st) as [[o st1]|x] eqn:Hp; [|discriminate].
    assert (Ho : o <> SendFailed).
    { intros ->. apply tx_poll_inv in Hp. inversion Hf; subst.
      simpl in Hs'. discriminate. }
    assert (Hs1 : stop_evt st1 = false).
    { pose proof (tx_poll_inv e sel st st1 o Hp) as Hinv.
      destruct o as [w| |]; [now subst | |congruence].
      destruct Hinv as (mime & data & _ & _ & _ & ->). exact Hs. }
    assert (Hrest : tx_for e rest st1 = (None, st')) by (destruct o; congruence).
    destruct (IH st1 Hrest Hs1 Hs') as [Hkeep Hall].
    split.
    + intros s Hsettled. apply Hkeep. eapply tx_poll_keeps_settled; eauto.
    + constructor; [|exact Hall].
      apply Hkeep. eapply tx_poll_settles; eauto.
Qed.

Lemma tx_for_settled (e : env) (todo : list string) (st : session) :
  Forall (fun sel => exists why, tx_poll e sel st = Ok (Skip why, st)) todo ->
  tx_for e todo st = (None, st).
Proof.
  induction 1 as [|sel rest [why Hp] _ IH]; simpl; [reflexivity|].
  rewrite Hp. exact IH.
Qed.

(** The frames of one pass: at most one for each selection. *)
Lemma tx_for_outbound (e : env) (todo : list string) (st : session) :
  exists new,
    outbound (snd (tx_for e todo st)) = outbound st ++ new
    /\ (length new <= length todo)%nat.
Proof.
  revert st. induction todo as [|sel rest IH]; intros st; simpl.
  - exists []. rewrite app_nil_r. split; [reflexivity | simpl; lia].
  - destruct (tx_poll e sel st) as [[o st1]|x] eqn:Hp; simpl.
    2:{ exists []. rewrite app_nil_r. split; [reflexivity | simpl; lia]. }
    pose proof (tx_poll_inv e sel st st1 o Hp) as Hinv.
    destruct o as [w| |].
    + subst st1. destruct (IH st) as (new & -> & Hlen). exists new. split; [reflexivity | simpl; lia].
    + destruct Hinv as (mime & data & _ & _ & _ & ->).
      destruct (IH (with_last_local
                      (<[sel := JStr (sha data mime)]> (last_local st))
                      (with_outbound
                         (outbound st ++ [(put_header sel mime data (sha data mime), data)])
                         st))) as (new & -> & Hlen).
      simpl. rewrite <- app_assoc. eexists. split; [reflexivity|]. simpl. lia.
    + subst st1. exists []. simpl. rewrite app_nil_r. split; [reflexivity | simpl; lia].
Qed.

Lemma tx_loop_quiet (e : env) (sels : list string) (st : session) (n : nat) :
  stop_evt st = false -> tx_for e sels st = (None, st) ->
  tx_loop (repeat e n) sels st = (Running, st).
Proof.
  intros Hs Hq. induction n as [|k IH]; cbn [repeat tx_loop]; rewrite Hs;
    [reflexivity|].
  rewrite Hq. exact IH.
Qed.

(** X7.  While the clipboard and the socket stay as they are, the first
    pass of the outbound loop does all there is to do: any number of
    further passes leaves the session as the first one left it.  A
    clipboard that does not change is put on the wire once, with at most
    one frame for each selection. *)
Theorem unchanged_clipboard_is_sent_once (e : env) (sels : list string)
    (st : session) (n : nat) :
  tx_loop (repeat e (S n)) sels st = tx_loop [e] sels st
  /\ exists new,
       outbound (snd (tx_loop (repeat e (S n)) sels st)) = outbound st ++ new
       /\ (length new <= length sels)%nat.
Proof.
  assert (Heq : tx_loop (repeat e (S n)) sels st = tx_loop [e] sels st).
  { cbn [repeat tx_loop]. destruct (stop_evt st) eqn:Hs; [reflexivity|].
    destruct (tx_for e sels st) as [[x|] st1] eqn:Hf; [reflexivity|].
    destruct (stop_evt st1) eqn:Hs1.
    - rewrite tx_loop_stopped by exact Hs1. reflexivity.
    - destruct (tx_for_settles e sels st st1 Hf Hs Hs1) as [_ Hall].
      pose proof (tx_for_settled e sels st1 Hall) as Hq.
      rewrite (tx_loop_quiet e sels st1 n Hs1 Hq). reflexivity. }
  split; [exact Heq|]. rewrite Heq. cbn [tx_loop].
  destruct (stop_evt st) eqn:Hs.
  { exists []. simpl. rewrite app_nil_r. split; [reflexivity | simpl; lia]. }
  pose proof (tx_for_outbound e sels st) as (new & Hout & Hlen).
  destruct (tx_for e sels st) as [[x|] st1]; simpl in *.
  - exists new. auto.
  - destruct (stop_evt st1); simpl; exists new; auto.
Qed.

(** ** Framing: what one peer writes, the other reads *)

Lemma readline_line (msg rest : list byte) :
  no_newline msg = true ->
  readline (msg ++ x0a :: rest) = (msg ++ [x0a], rest).
Proof.
  induction msg as [|b msg IH]; simpl; intros Hn; [reflexivity|].
  apply andb_true_iff in Hn. destruct Hn as [Hb Hn].
  apply negb_true_iff in Hb. rewrite Hb, (IH Hn). reflexivity.
Qed.

Lemma rx_iter_wire `{Runtime} `{Dumper} (st : session)
    (sel mime h : string) (data msg rest : list byte) :
  carried (put_header sel mime data h, data) msg ->
  inbound st = msg ++ [x0a] ++ data ++ rest ->
  rx_iter st =
    Ok (Continue,
        Session (last_local st) (<[sel := JStr h]> (last_remote st))
          (stop_evt st) rest (outbound st)
          (clipboard st ++ [set_clip (JStr sel) (JStr mime) data])).
Proof.
  intros (Hd & Hn & Hl) Hin. simpl in Hd, Hl.
  rewrite (rx_iter_put st (msg ++ [x0a]) (data ++ rest)
             [("t", JStr "put"); ("sel", JStr sel); ("mime", JStr mime);
              ("len", JInt (Z.of_nat (length data))); ("hash", JStr h)]%string
             (Z.of_nat (length data)) (<[sel := JStr h]> (last_remote st))).
  - simpl. rewrite Nat2Z.id, take_app_length, drop_app_length. reflexivity.
  - rewrite Hin. simpl. now apply readline_line.
  - destruct msg; discriminate.
  - exact Hl.
  - reflexivity.
  - reflexivity.
  - rewrite length_app. lia.
  - reflexivity.
Qed.

(** X8.  One frame, from [Peer.send] to [rx_loop].  When the JSON library
    carries the header over, a pass of the inbound loop on the bytes that
    [Peer.send] wrote for a put frame reads exactly that frame, whatever
    bytes the payload is made of and whatever follows it: it stores the
    declared hash, hands the very payload to [set_clip], and leaves the
    stream at the first byte after the frame. *)
Theorem rx_reads_what_send_wrote `{Runtime} `{Dumper} (st : session)
    (sel mime h : string) (data msg rest : list byte) :
  carried (put_header sel mime data h, data) msg ->
  inbound st = msg ++ [x0a] ++ data ++ rest ->
  wire_of_frame (put_header sel mime data h, data) = Some (msg ++ [x0a] ++ data)
  /\ rx_iter st =
       Ok (Continue,
           Session (last_local st) (<[sel := JStr h]> (last_remote st))
             (stop_evt st) rest (outbound st)
             (clipboard st ++ [set_clip (JStr sel) (JStr mime) data])).
Proof.
  intros Hcar Hin. split.
  - destruct Hcar as (Hd & _ & _). simpl in Hd.
    unfold wire_of_frame. simpl. rewrite Hd. reflexivity.
  - now apply rx_iter_wire with msg.
Qed.

Lemma put_frame_fields (sel mime h : string) (data : list byte) :
  let fr := (put_header sel mime data h, data) in
  applied fr = set_clip (JStr sel) (JStr mime) data
  /\ forall m, received m fr = <[sel := JStr h]> m.
Proof. split; reflexivity. Qed.

(** X9.  A whole stream.  When the peer has written put frames one after
    the other and closed, and the JSON library carries their headers over,
    the inbound loop applies every frame, in the order sent and with the
    payload sent, records the declared hashes, later ones over earlier
    ones, and then returns with [stop_evt] set; it needs one pass for each
    frame and one for the end of the stream. *)
Theorem rx_applies_stream `{Runtime} `{Dumper} (frames : list frame)
    (st : session) (bytes : list byte) :
  Forall put_frame frames ->
  Forall (fun fr => exists msg, carried fr msg) frames ->
  wire frames = Some bytes ->
  inbound st = bytes -> stop_evt st = false ->
  rx_loop (S (length frames)) st =
    (Returned,
     Session (last_local st) (fold_left received frames (last_remote st))
       true [] (outbound st) (clipboard st ++ map applied frames)).
Proof.
  revert st bytes. induction frames as [|fr frames IH];
    intros st bytes Hput Hcar Hw Hin Hs.
  - simpl in Hw. injection Hw as Hw. cbn [length rx_loop]. rewrite Hs.
    unfold rx_iter. rewrite Hin, <- Hw. simpl. rewrite app_nil_r. reflexivity.
  - apply Forall_cons in Hput. destruct Hput as [(sel & mime & h & Hfr) Hput'].
    apply Forall_cons in Hcar. destruct Hcar as [[msg Hmsg] Hcar'].
    destruct fr as [hdr data]. simpl in Hfr. subst hdr.
    cbn [wire] in Hw.
    destruct (wire frames) as [bs|] eqn:Hbs.
    2:{ destruct (wire_of_frame _); discriminate. }
    pose proof Hmsg as (Hd & _ & _). cbn [fst] in Hd.
    unfold wire_of_frame in Hw. cbn [fst snd] in Hw. rewrite Hd in Hw.
    simpl in Hw. injection Hw as Hw.
    assert (Hit := rx_iter_wire st sel mime h data msg bs Hmsg).
    rewrite Hin, <- Hw in Hit. simpl in Hit. rewrite <- !app_assoc in Hit.
    specialize (Hit eq_refl).
    cbn [length]. change (rx_loop (S (S (length frames))) st)
      with (if stop_evt st then (Returned, with_stop true st)
            else match rx_iter st with
                 | Ok (Continue, st') => rx_loop (S (length frames)) st'
                 | Ok (Break, st') => (Returned, with_stop true st')
                 | Raise e => (Died e, st)
                 end).
    rewrite Hs, Hit.
    erewrite IH; [|exact Hput' | exact Hcar' | reflexivity | reflexivity | exact Hs].
    destruct (put_frame_fields sel mime h data) as [Ha Hr].
    cbn [last_local last_remote outbound clipboard map fold_left].
    rewrite Ha, Hr, <- app_assoc. reflexivity.
Qed.


(** ** Addresses *)

Lemma split_on_one (sep : ascii) (s b : string) :
  split_on sep s = [b] -> s = b /\ occurs sep b = O.
Proof.
  revert b. induction s as [|c r IH]; intros b; simpl.
  - intros [= <-]. auto.
  - destruct (Ascii.eqb c sep) eqn:Ec.
    + intros [= _ Hr]. destruct r; simpl in Hr; [discriminate|].
      destruct (Ascii.eqb a sep); [discriminate|].
      destruct (split_on sep r); discriminate.
    + destruct (split_on sep r) as [|w ws] eqn:Hs.
      * intros [= <-]. destruct r; simpl in Hs; [discriminate|].
        destruct (Ascii.eqb a sep); [discriminate|].
        destruct (split_on sep r); discriminate.
      * intros [= <- ->]. destruct (IH w eq_refl) as [-> Ho].
        simpl. rewrite Ec. auto.
Qed.

Lemma split_on_two (sep : ascii) (s a b : string) :
  split_on sep s = [a; b] ->
  s = a +:+ String sep b /\ occurs sep a = O /\ occurs sep b = O.
Proof.
  revert a. induction s as [|c r IH]; intros a; simpl; [discriminate|].
  destruct (Ascii.eqb c sep) eqn:Ec.
  - intros [= <- Hr]. apply Ascii.eqb_eq in Ec. subst c.
    destruct (split_on_one sep r b Hr) as [-> Ho]. auto.
  - destruct (split_on sep r) as [|w ws] eqn:Hs; [discriminate|].
    intros [= <- ->]. destruct (IH w eq_refl) as (-> & Ha & Hb).
    simpl. rewrite Ec. auto.
Qed.

Lemma split_on_free (sep : ascii) (b : string) :
  occurs sep b = O -> split_on sep b = [b].
Proof.
  induction b as [|c r IH]; simpl; [reflexivity|].
  destruct (Ascii.eqb c sep); [discriminate|]. intros Ho.
  now rewrite (IH Ho).
Qed.

Lemma split_on_at (sep : ascii) (a b : string) :
  occurs sep a = O ->
  split_on sep (a +:+ String sep b) = a :: split_on sep b.
Proof.
  induction a as [|c r IH]; simpl.
  - intros _. now rewrite Ascii.eqb_refl.
  - destruct (Ascii.eqb c sep); [discriminate|]. intros Ho.
    now rewrite (IH Ho).
Qed.

Lemma split_on_length (sep : ascii) (s : string) :
  length (split_on sep s) = S (occurs sep s).
Proof.
  induction s as [|c r IH]; simpl; [reflexivity|].
  destruct (Ascii.eqb c sep); simpl; [now rewrite IH|].
  destruct (split_on sep r); simpl in *; lia.
Qed.

(** X11.  The address given to [--listen] or [--connect] is accepted
    exactly when it is a host without colon, one colon, and a port without
    colon that [int] accepts; the host may be empty and the port is not
    checked against any range.  An address with no colon or with more
    than one, an IPv6 address for one, raises [ValueError]. *)
Theorem parse_addr_accepts `{Runtime} (addr host : string) (p : Z) :
  (parse_addr addr = Ok (host, p) <->
   exists port,
     addr = host +:+ String ":" port
     /\ occurs ":" host = O /\ occurs ":" port = O
     /\ int_of_str port = Ok p)
  /\ (occurs ":" addr <> 1%nat -> parse_addr addr = Raise ValueError).
Proof.
  split; [split|].
  - unfold parse_addr.
    destruct (split_on ":" addr) as [|a [|b [|c l]]] eqn:Hs; try discriminate.
    destruct (int_of_str b) as [n|x] eqn:Hb; simpl; [|discriminate].
    intros [= -> ->]. destruct (split_on_two ":" addr host b Hs) as (-> & Ha & Hb').
    exists b. auto.
  - intros (port & -> & Ha & Hb & Hp). unfold parse_addr.
    rewrite (split_on_at ":" host port Ha), (split_on_free ":" port Hb).
    rewrite Hp. reflexivity.
  - intros Hn. unfold parse_addr.
    pose proof (split_on_length ":" addr) as Hl.
    destruct (split_on ":" addr) as [|a [|b [|c l]]]; try reflexivity.
    simpl in Hl. lia.
Qed.

(** ** Content-type choice, again *)

Lemma choose_from_offered (ps mimes : list string) (m : string) :
  choose_from ps mimes = Some m -> In m mimes.
Proof.
  induction ps as [|pref rest IH]; simpl.
  - destruct mimes; simpl; [discriminate|]. intros [= <-]. now left.
  - destruct (find (mime_hit pref) mimes) as [m'|] eqn:Hf; [|exact IH].
    intros [= <-]. apply find_some in Hf. tauto.
Qed.

Lemma choose_from_some (ps : list string) (m : string) (ms : list string) :
  choose_from ps (m :: ms) <> None.
Proof.
  induction ps as [|pref rest IH]; [discriminate|]. cbn [choose_from].
  destruct (find (mime_hit pref) (m :: ms)); [discriminate | exact IH].
Qed.

(** X12.  [choose_mime] never invents a type: what it returns is one of the
    types offered.  It returns [None] for the empty list only, so that a
    selection that offers anything always has a type chosen. *)
Theorem choose_mime_offered (mimes : list string) :
  (forall m, choose_mime mimes = Some m -> In m mimes)
  /\ (choose_mime mimes = None <-> mimes = []).
Proof.
  split.
  - intros m. apply choose_from_offered.
  - split.
    + destruct mimes as [|m ms]; [reflexivity|]. intros Hn.
      now apply choose_from_some in Hn.
    + intros ->. reflexivity.
Qed.

(** ** What the hash tells apart *)

Lemma split_at_nul (l1 l2 d1 d2 : list byte) :
  forallb (fun b => negb (Byte.eqb b x00)) l1 = true ->
  forallb (fun b => negb (Byte.eqb b x00)) l2 = true ->
  l1 ++ x00 :: d1 = l2 ++ x00 :: d2 -> l1 = l2 /\ d1 = d2.
Proof.
  revert l2. induction l1 as [|a l1 IH]; intros [|b l2]; simpl; intros H1 H2 E.
  - now inversion E.
  - inversion E; subst. discriminate.
  - inversion E; subst. discriminate.
  - apply andb_true_iff in H1. apply andb_true_iff in H2.
    inversion E; subst. destruct (IH l2) as [-> ->]; tauto.
Qed.

Lemma list_byte_of_string_app (a b : string) :
  list_byte_of_string (a +:+ b) = list_byte_of_string a ++ list_byte_of_string b.
Proof.
  unfold list_byte_of_string.
  induction a as [|c a IH]; simpl; [reflexivity|]. now rewrite IH.
Qed.

(** X13.  The zero byte between content type and content keeps snapshots
    apart: two snapshots whose types hold no NUL are hashed from the same
    bytes only if they have the same type and the same content.  A NUL
    inside the type undoes this: the snapshot of type [m1 NUL m2] with
    content [d] and the snapshot of type [m1] with content [m2 NUL d] have
    the same hash. *)
Theorem hashed_tells_snapshots_apart :
  (forall data mime, sha data mime = Sha256.hexdigest (hashed data mime))
  /\ (forall data data' mime mime',
        nul_free mime = true -> nul_free mime' = true ->
        hashed data mime = hashed data' mime' ->
        mime = mime' /\ data = data')
  /\ (forall m1 m2 d,
        sha d (m1 +:+ String "000" m2)
        = sha (list_byte_of_string m2 ++ x00 :: d) m1).
Proof.
  split; [reflexivity|]. split.
  - intros data data' mime mime' Hn Hn' E.
    destruct (split_at_nul _ _ _ _ Hn Hn' E) as [Hm Hd]. split; [|exact Hd].
    rewrite <- (string_of_list_byte_of_string mime),
            <- (string_of_list_byte_of_string mime').
    now rewrite Hm.
  - intros m1 m2 d. unfold sha. f_equal.
    rewrite list_byte_of_string_app. simpl. rewrite <- app_assoc. reflexivity.
Qed.

(** ** Where a received frame lands *)

(** X14.  [set_clip] knows two targets.  A put frame that names any
    selection other than ["primary"], a name the session does not know
    included, is written by [wl-copy --type mime], that is to the regular
    clipboard; only the name ["primary"] adds [--primary]. *)
Theorem unknown_selection_lands_on_clipboard `{Runtime} (st : session)
    (line rest : list byte) (d : list (string * json)) (L : Z) (s : string) :
  readline (inbound st) = (line, rest) -> line <> [] ->
  json_loads line = Some (JObj d) ->
  dict_get "t" d = Some (JStr "put") ->
  dict_get "sel" d = Some (JStr s) ->
  py_int (default (JInt 0) (dict_get "len" d)) = Ok L ->
  0 <= L <= Z.of_nat (length rest) ->
  exists st' w,
    rx_iter st = Ok (Continue, st')
    /\ clipboard st' = clipboard st ++ [w]
    /\ cw_data w = take (Z.to_nat L) rest
    /\ cw_cmd w =
         if String.eqb s "primary"
         then [JStr "wl-copy"; JStr "--primary"; JStr "--type";
               default (JStr "text/plain") (dict_get "mime" d)]
         else [JStr "wl-copy"; JStr "--type";
               default (JStr "text/plain") (dict_get "mime" d)].
Proof.
  intros Hrl Hne Hj Ht Hsel Hlen HL. eexists _, _. split.
  - apply rx_iter_put with line; try eassumption.
    rewrite Hsel. reflexivity.
  - rewrite Hsel. cbn [clipboard default from_option id].
    split; [reflexivity|]. split; [reflexivity|].
    unfold set_clip. cbn [py_str_eq cw_cmd].
    rewrite (String.eqb_sym "primary" s).
    destruct (String.eqb s "primary"); reflexivity.
Qed.

(** X15.  With [--no-primary] no session ever sends a frame for the
    primary selection: every frame written names ["clipboard"]. *)
Theorem no_primary_sends_clipboard_only `{Runtime} (have_primary : bool)
    (c : connection) (fr : frame) :
  fr ∈ outbound (ended (run_session c (primary_ok_of have_primary true))) ->
  frame_field "sel" fr = JStr "clipboard".
Proof.
  intros Hin.
  assert (HP : Forall (sent_snapshot ["clipboard"%string])
                 (outbound (ended (run_session c (primary_ok_of have_primary true))))).
  { replace (primary_ok_of have_primary true) with false
      by (unfold primary_ok_of; now rewrite andb_false_r).
    apply (run_session_inv
             (fun st => Forall (sent_snapshot ["clipboard"%string]) (outbound st))).
    - constructor.
    - intros st k st' HP Hit.
      destruct (rx_iter_frame st st' k Hit) as (_ & _ & -> & _). exact HP.
    - intros e sel st o st' Hsel HP Hp. destruct o as [why| |].
      + apply tx_poll_inv in Hp. now subst.
      + apply tx_poll_sent_mime in Hp. destruct Hp as (mime & data & Hm & ->).
        simpl. apply Forall_app. split; [exact HP|].
        constructor; [|constructor]. exists sel, mime. auto.
      + apply tx_poll_inv in Hp. now subst.
    - intros st HP. exact HP. }
  rewrite Forall_forall in HP. destruct (HP fr Hin) as (sel & mime & Hsel & _ & Hfr).
  apply list_elem_of_singleton in Hsel. subst sel.
  unfold frame_field. rewrite Hfr. reflexivity.
Qed.

(** ** The end of a session *)

Lemma sched_tx_inbound `{Runtime} (sels : list string) (e : env)
    (th : threads) (st : session) :
  rx_thread (fst (sched sels (th, st) (TxTurn e))) = rx_thread th
  /\ inbound (snd (sched sels (th, st) (TxTurn e))) = inbound st
  /\ (stop_evt st = true -> stop_evt (snd (sched sels (th, st) (TxTurn e))) = true).
Proof.
  unfold sched. destruct (tx_thread th); try (repeat split; auto; fail).
  destruct (tx_loop_side [e] sels st) as (Hi & _ & _).
  pose proof (tx_loop_stopped [e] sels st) as Hst.
  destruct (tx_loop [e] sels st) as [r st']. simpl in *.
  repeat split; auto. intros Hs. specialize (Hst Hs). now inversion Hst; subst.
Qed.

Lemma sched_rx_step `{Runtime} (sels : list string) (th : threads) (st : session) :
  (rx_thread (fst (sched sels (th, st) RxTurn)) = Running ->
   rx_thread th = Running
   /\ (length (inbound (snd (sched sels (th, st) RxTurn))) < length (inbound st))%nat)
  /\ ((rx_thread th = Returned -> stop_evt st = true) ->
      rx_thread (fst (sched sels (th, st) RxTurn)) = Returned ->
      stop_evt (snd (sched sels (th, st) RxTurn)) = true).
Proof.
  unfold sched. destruct (rx_thread th) eqn:Hth.
  - pose proof (rx_loop_stop_flag 1 st) as (Hout & _).
    assert (Hlt : fst (rx_loop 1 st) = Running ->
                  (length (inbound (snd (rx_loop 1 st))) < length (inbound st))%nat).
    { simpl. destruct (stop_evt st); [discriminate|].
      destruct (rx_iter st) as [[[|] st']|x] eqn:Hit; simpl; try discriminate.
      intros _. now apply rx_iter_consumes. }
    destruct (rx_loop 1 st) as [r st']. simpl in *. split; auto.
  - simpl. rewrite Hth. split; [discriminate | auto].
  - simpl. rewrite Hth. split; [discriminate | auto].
Qed.

Lemma turns_end_rx `{Runtime} (sels : list string) (turns : list turn)
    (th : threads) (st : session) :
  (rx_thread th = Running -> (length (inbound st) < rx_turns turns)%nat) ->
  (rx_thread th = Returned -> stop_evt st = true) ->
  let p := fold_left (sched sels) turns (th, st) in
  rx_thread (fst p) <> Running
  /\ (rx_thread (fst p) = Returned -> stop_evt (snd p) = true).
Proof.
  revert th st. induction turns as [|t turns IH]; intros th st Hrun Hret;
    cbn [fold_left].
  - simpl. split; [|exact Hret]. intros Hr. specialize (Hrun Hr). simpl in Hrun. lia.
  - destruct t as [|e].
    + cbn [rx_turns] in Hrun.
      destruct (sched_rx_step sels th st) as [Hlt Hout].
      destruct (sched sels (th, st) RxTurn) as [th' st']. simpl in *.
      apply IH.
      * intros Hr. destruct (Hlt Hr) as [Hth Hl]. specialize (Hrun Hth). lia.
      * now apply Hout.
    + cbn [rx_turns] in Hrun.
      destruct (sched_tx_inbound sels e th st) as (Hth & Hin & Hstop).
      destruct (sched sels (th, st) (TxTurn e)) as [th' st']. simpl in *.
      apply IH.
      * rewrite Hth, Hin. exact Hrun.
      * rewrite Hth. auto.
Qed.

(** X16.  A session ends when the peer closes.  If the schedule gives the
    inbound thread more turns than the peer sent bytes, then at the end
    the inbound thread is no longer running; and unless an exception
    ended it, [stop_evt] is set and [run_session] goes on to its end,
    whatever the outbound thread did in between. *)
Theorem session_ends_when_peer_closes `{Runtime} (c : connection)
    (primary_ok : bool) :
  (length (conn_inbound c) < rx_turns (conn_schedule c))%nat ->
  let r := run_session c primary_ok in
  rx_thread (threads_end r) <> Running
  /\ (rx_thread (threads_end r) = Returned -> session_over r = true).
Proof.
  intros Hlen. unfold run_session, session_over.
  pose proof (turns_end_rx (selections_of primary_ok) (conn_schedule c)
                (Threads Running Running)
                (session_start (conn_inbound c) primary_ok)) as Hend.
  destruct (fold_left _ _ _) as [th st]. simpl in *.
  apply Hend; [intros _; exact Hlen | discriminate].
Qed.

(** ** The further properties at sample inputs *)

(** X1 at the session that polls "hello" once. *)
Lemma outbound_frames_witness :
  Traffic.fr_hello ∈ outbound (ended (@run_session Ref.runtime Sample.conn_b false))
  /\ exists sel mime,
       sel ∈ selections_of false /\ mime <> EmptyString
       /\ fst Traffic.fr_hello
          = put_header sel mime (snd Traffic.fr_hello) (sha (snd Traffic.fr_hello) mime)
       /\ frame_field "len" Traffic.fr_hello = JInt 5
       /\ frame_field "hash" Traffic.fr_hello = JStr (sha (snd Traffic.fr_hello) mime).
Proof.
  assert (Hin : Traffic.fr_hello
                ∈ outbound (ended (@run_session Ref.runtime Sample.conn_b false))).
  { vm_compute. apply list_elem_of_here. }
  split; [exact Hin|].
  exact (@outbound_frames_are_snapshots Ref.runtime Sample.conn_b false
           Traffic.fr_hello Hin).
Defined.

(** X4 at a session that was stopped before a frame arrived. *)
Lemma stopped_session_witness :
  let st := with_stop true (session_start Sample.frame_wrong false) in
  snd (fold_left (@sched Ref.runtime ["clipboard"%string])
         [RxTurn; TxTurn (Sample.desk Sample.hello true); RxTurn]
         (Threads Running Running, st)) = st.
Proof.
  intros st.
  apply (@stopped_session_is_frozen Ref.runtime). reflexivity.
Defined.

(** X5 at a stream of an unknown header and a frame. *)
Lemma rx_loop_outcome_witness :
  let st := session_start Sample.ping_then_frame false in
  let fuel := S (length (inbound st)) in
  fst (@rx_loop Ref.runtime fuel st) <> Running.
Proof.
  intros st fuel.
  apply (proj1 (@rx_loop_outcome Ref.runtime fuel st)). unfold fuel. lia.
Defined.


(** X8 at a payload with a newline in it, followed by another frame. *)
Lemma rx_reads_what_send_wrote_witness :
  let msg := Traffic.header_bytes Traffic.fr_text in
  let st := session_start (msg ++ [x0a] ++ Traffic.two_lines ++ Sample.frame_wrong)
              false in
  @rx_iter Ref.runtime st =
    Ok (Continue,
        Session (last_local st) (<["clipboard"%string := JStr "00ff"]> (last_remote st))
          false Sample.frame_wrong []
          [set_clip (JStr "clipboard") (JStr "text/plain") Traffic.two_lines]).
Proof.
  intros msg st.
  apply (@rx_reads_what_send_wrote Ref.runtime RefPrint.dumper st
           "clipboard" "text/plain" "00ff" Traffic.two_lines msg Sample.frame_wrong).
  - split; [|split]; vm_compute; reflexivity.
  - reflexivity.
Defined.

(** X9 at two frames, the second for the primary selection. *)
Lemma rx_applies_stream_witness :
  let frames := [Traffic.fr_text; Traffic.fr_primary] in
  let bytes := default [] (@wire RefPrint.dumper frames) in
  let st := session_start bytes false in
  @rx_loop Ref.runtime 3 st =
    (Returned,
     Session (last_local st)
       (<["primary"%string := JStr "00aa"]>
          (<["clipboard"%string := JStr "00ff"]> (last_remote st)))
       true [] []
       [set_clip (JStr "clipboard") (JStr "text/plain") Traffic.two_lines;
        set_clip (JStr "primary") (JStr "text/plain") Sample.hello]).
Proof.
  intros frames bytes st.
  apply (@rx_applies_stream Ref.runtime RefPrint.dumper frames st bytes).
  - repeat constructor; eexists _, _, _; reflexivity.
  - repeat constructor.
    + exists (Traffic.header_bytes Traffic.fr_text).
      split; [|split]; vm_compute; reflexivity.
    + exists (Traffic.header_bytes Traffic.fr_primary).
      split; [|split]; vm_compute; reflexivity.
  - vm_compute. reflexivity.
  - reflexivity.
  - reflexivity.
Defined.


(** X11 at [0.0.0.0:8377]. *)
Lemma parse_addr_witness :
  @parse_addr Ref.runtime "0.0.0.0:8377" = Ok ("0.0.0.0"%string, 8377)
  /\ @parse_addr Ref.runtime "[::1]:8377" = Raise ValueError.
Proof.
  split.
  - apply (proj1 (@parse_addr_accepts Ref.runtime "0.0.0.0:8377" "0.0.0.0" 8377)).
    exists "8377"%string. repeat split; reflexivity.
  - apply (proj2 (@parse_addr_accepts Ref.runtime "[::1]:8377" "" 0)).
    vm_compute. discriminate.
Defined.

(** X12 at a list without image or text. *)
Lemma choose_mime_offered_witness :
  In "text/html"%string ["text/html"; "application/json"]%string.
Proof.
  apply (proj1 (choose_mime_offered ["text/html"; "application/json"]%string)).
  reflexivity.
Defined.

(** X13 at two snapshots with the same type and content. *)
Lemma hashed_witness :
  "text/plain"%string = "text/plain"%string /\ Sample.hello = Sample.hello.
Proof.
  apply (proj1 (proj2 hashed_tells_snapshots_apart)
           Sample.hello Sample.hello "text/plain"%string "text/plain"%string);
    reflexivity.
Defined.

(** X14 at a frame for the selection "bogus". *)
Lemma unknown_selection_witness :
  let st := session_start Traffic.frame_bogus false in
  exists st' w,
    @rx_iter Ref.runtime st = Ok (Continue, st')
    /\ clipboard st' = [w]
    /\ cw_data w = Sample.hello
    /\ cw_cmd w = [JStr "wl-copy"; JStr "--type"; JStr "text/plain"].
Proof.
  intros st.
  apply (@unknown_selection_lands_on_clipboard Ref.runtime st
           (Ref.line Traffic.hdr_bogus) Sample.hello
           (Sample.put_dict "bogus" 5 (JStr "00ff")) 5 "bogus"%string).
  - vm_compute. reflexivity.
  - discriminate.
  - vm_compute. reflexivity.
  - reflexivity.
  - reflexivity.
  - reflexivity.
  - vm_compute. split; discriminate.
Defined.

(** X15 at the session that polls "hello" once, started with
    [--no-primary] on a machine that has a primary selection. *)
Lemma no_primary_witness :
  frame_field "sel" Traffic.fr_hello = JStr "clipboard".
Proof.
  apply (@no_primary_sends_clipboard_only Ref.runtime true Sample.conn_b
           Traffic.fr_hello).
  vm_compute. apply list_elem_of_here.
Defined.

(** X16 at a peer that sends two bytes and closes. *)
Lemma session_ends_witness :
  let r := @run_session Ref.runtime Traffic.conn_short false in
  rx_thread (threads_end r) <> Running
  /\ (rx_thread (threads_end r) = Returned -> session_over r = true).
Proof.
  apply (@session_ends_when_peer_closes Ref.runtime Traffic.conn_short false).
  vm_compute. lia.
Defined.

(** ** The types that [list_mimes] returns *)

Lemma lstrip_suffix (s : list Z) : exists p, s = p ++ Wl.lstrip s.
Proof.
  induction s as [|c r [p IH]]; simpl; [now exists []|].
  destruct (Wl.is_space c).
  - exists (c :: p). simpl. now rewrite <- IH.
  - now exists [].
Qed.

Lemma lstrip_head (s : list Z) (c : Z) :
  head (Wl.lstrip s) = Some c -> Wl.is_space c = false.
Proof.
  induction s as [|a r IH]; simpl; [discriminate|].
  destruct (Wl.is_space a) eqn:Ha; [exact IH|].
  simpl. now intros [= <-].
Qed.

Lemma lstrip_id (s : list Z) :
  (forall c, head s = Some c -> Wl.is_space c = false) -> Wl.lstrip s = s.
Proof.
  destruct s as [|a r]; simpl; [reflexivity|]. intros Hh.
  now rewrite (Hh a eq_refl).
Qed.

Lemma lstrip_Forall (P : Z -> Prop) (s : list Z) :
  Forall P s -> Forall P (Wl.lstrip s).
Proof.
  destruct (lstrip_suffix s) as [p Hp]. intros HF. rewrite Hp in HF.
  apply Forall_app in HF. tauto.
Qed.

(** What [strip] leaves has no white space at either end. *)
Lemma strip_ends (s : list Z) :
  (forall c, head (Wl.strip s) = Some c -> Wl.is_space c = false)
  /\ (forall c, last (Wl.strip s) = Some c -> Wl.is_space c = false).
Proof.
  unfold Wl.strip. split; intros c.
  - rewrite head_reverse.
    destruct (lstrip_suffix (reverse (Wl.lstrip s))) as [p Hp].
    intros Hl. apply (lstrip_head s).
    rewrite <- last_reverse, Hp, last_app, Hl. reflexivity.
  - rewrite last_reverse. apply lstrip_head.
Qed.

Lemma strip_Forall (P : Z -> Prop) (s : list Z) :
  Forall P s -> Forall P (Wl.strip s).
Proof.
  intros HF. unfold Wl.strip.
  apply Forall_reverse, lstrip_Forall, Forall_reverse, lstrip_Forall, HF.
Qed.

Lemma strip_id (m : list Z) :
  (forall c, head m = Some c -> Wl.is_space c = false) ->
  (forall c, last m = Some c -> Wl.is_space c = false) ->
  Wl.strip m = m.
Proof.
  intros Hh Hl. unfold Wl.strip. rewrite (lstrip_id m Hh).
  rewrite lstrip_id; [apply reverse_involutive|].
  intros c. rewrite head_reverse. apply Hl.
Qed.

(** The lines of [splitlines] hold no line boundary. *)
Lemma lines_break_free (s cur : list Z) (after_cr : bool) :
  Forall (fun c => Wl.is_break c = false) cur ->
  Forall (Forall (fun c => Wl.is_break c = false)) (Wl.lines s cur after_cr).
Proof.
  revert cur after_cr. induction s as [|c r IH]; intros cur ac Hcur; simpl.
  - destruct cur; constructor; [|constructor]. now apply Forall_reverse.
  - destruct (Wl.is_break c) eqn:Hc.
    + destruct ((c =? 10) && ac); [now apply IH|].
      constructor; [now apply Forall_reverse | apply IH; constructor].
    + apply IH. now constructor.
Qed.

Lemma stripped_clean (ls : list (list Z)) :
  Forall (Forall (fun c => Wl.is_break c = false)) ls ->
  Forall Wl.clean (Wl.stripped ls).
Proof.
  induction ls as [|l r IH]; intros HF; simpl; [constructor|].
  apply Forall_cons in HF. destruct HF as [Hl Hr].
  destruct (Wl.strip l) as [|a m] eqn:Hs; [now apply IH|].
  constructor; [|now apply IH].
  destruct (strip_ends l) as [Hh Ht]. rewrite Hs in Hh, Ht.
  repeat split; try assumption; [discriminate|].
  rewrite <- Hs. now apply strip_Forall.
Qed.

Lemma list_mimes_clean (rc : Z) (text : list Z) :
  Forall Wl.clean (Wl.list_mimes rc text).
Proof.
  unfold Wl.list_mimes. destruct (negb (rc =? 0)); [constructor|].
  apply stripped_clean, lines_break_free. constructor.
Qed.

(** X17.  [list_mimes] returns nothing when [wl-paste -l] fails, and
    otherwise only clean type names: none is empty, none begins or ends
    with white space, none holds a line boundary. *)
Theorem list_mimes_entries_are_clean (rc : Z) (text : list Z) :
  (rc <> 0 -> Wl.list_mimes rc text = [])
  /\ Forall Wl.clean (Wl.list_mimes rc text).
Proof.
  split; [|apply list_mimes_clean].
  unfold Wl.list_mimes. intros Hrc.
  destruct (Z.eqb_spec rc 0); [contradiction | reflexivity].
Qed.

Lemma lines_item (m s cur : list Z) (after_cr : bool) :
  Forall (fun c => Wl.is_break c = false) m ->
  Wl.lines (m ++ s) cur after_cr
  = Wl.lines s (reverse m ++ cur) (match m with [] => after_cr | _ => false end).
Proof.
  revert cur after_cr. induction m as [|c m IH]; intros cur ac HF; [reflexivity|].
  apply Forall_cons in HF. destruct HF as [Hc Hm].
  simpl. rewrite Hc, (IH _ _ Hm), reverse_cons, <- app_assoc. simpl.
  destruct m; reflexivity.
Qed.

Lemma splitlines_join (r : list (list Z)) :
  Forall Wl.clean r -> Wl.splitlines (Wl.join_lines r) = r.
Proof.
  unfold Wl.splitlines. induction r as [|m r IH]; intros HF; [reflexivity|].
  apply Forall_cons in HF. destruct HF as [(Hne & _ & _ & Hb) Hr].
  destruct r as [|m2 r].
  - simpl. rewrite <- (app_nil_r m) at 1. rewrite (lines_item m [] [] false Hb).
    simpl. rewrite app_nil_r.
    destruct (reverse m) eqn:Hrev.
    + apply (f_equal reverse) in Hrev. rewrite reverse_involutive in Hrev.
      contradiction.
    + rewrite <- Hrev, reverse_involutive. reflexivity.
  - change (Wl.join_lines (m :: m2 :: r)) with (m ++ 10 :: Wl.join_lines (m2 :: r)).
    rewrite (lines_item m _ [] false Hb).
    remember (Wl.join_lines (m2 :: r)) as rest. destruct m; [contradiction|].
    simpl. rewrite app_nil_r, reverse_involutive. f_equal.
    subst rest. apply IH, Hr.
Qed.

Lemma stripped_id (r : list (list Z)) :
  Forall Wl.clean r -> Wl.stripped r = r.
Proof.
  induction 1 as [|m r (Hne & Hh & Hl & _) _ IH]; simpl; [reflexivity|].
  rewrite (strip_id m Hh Hl), IH. destruct m; [contradiction | reflexivity].
Qed.

(** X18.  The list that [list_mimes] returns is all that the text said:
    written out one name to a line and read again, it comes back as it
    is. *)
Theorem list_mimes_round_trip (rc : Z) (text : list Z) :
  Wl.list_mimes 0 (Wl.join_lines (Wl.list_mimes rc text)) = Wl.list_mimes rc text.
Proof.
  pose proof (list_mimes_clean rc text) as Hclean.
  unfold Wl.list_mimes at 1. simpl.
  rewrite (splitlines_join _ Hclean). now apply stripped_id.
Qed.

(** X17 at a listing that failed, and at one with blank lines, padding and
    a carriage return. *)
Lemma list_mimes_witness :
  Wl.list_mimes 1 (Wl.of_string "image/png") = []
  /\ Wl.list_mimes 0
       (Wl.of_string "text/plain;charset=utf-8" ++ [10; 32; 32]
        ++ Wl.of_string "image/png" ++ [32; 13; 10; 10])
     = [Wl.of_string "text/plain;charset=utf-8"; Wl.of_string "image/png"].
Proof.
  split.
  - apply (proj1 (list_mimes_entries_are_clean 1 (Wl.of_string "image/png"))).
    discriminate.
  - vm_compute. reflexivity.
Defined.
